(** * whatsapp-bot: rate limiter, trigger engine and message pipeline

  A shallow embedding of [src/database.js] (class [RateLimiter]) and of the
  message handler (class [MessageHandler]) together with the parts of the
  store and of the transport they call, followed by the properties of the
  specification that concern them.

  Conventions.
  - Instants and durations are integers (milliseconds), as the values of
    [Date.now()] are.  One call of a public method reads the clock once in
    the model: the method runs synchronously, and the instant is passed as
    the argument [now].
  - JavaScript [Map]s keyed by strings are [gmap string _]; arrays are
    lists.
  - Strings are [string]; case folding is modelled on the ASCII letters. *)

From Stdlib Require Import ZArith String Ascii List Bool Lia.
From stdpp Require Import base option list sorting gmap strings.

Local Open Scope Z_scope.

(** ** JavaScript string primitives used by the code *)

Module Js.

(** [a > b] on two strings: lexicographic order on the code units. *)
Definition str_gt (a b : string) : bool := String.ltb b a.

Definition lower_ascii (c : ascii) : ascii :=
  let n := nat_of_ascii c in
  if ((65 <=? n)%nat && (n <=? 90)%nat)%bool then ascii_of_nat (n + 32) else c.

(** [s.toLowerCase()] *)
Fixpoint toLowerCase (s : string) : string :=
  match s with
  | EmptyString => EmptyString
  | String c s' => String (lower_ascii c) (toLowerCase s')
  end.

(** [s.includes(k)] *)
Fixpoint includes (s k : string) : bool :=
  if String.prefix k s then true
  else match s with
       | EmptyString => false
       | String _ s' => includes s' k
       end.

(** [s.endsWith(suffix)] *)
Definition endsWith (s suffix : string) : bool :=
  let n := String.length s in
  let m := String.length suffix in
  if (m <=? n)%nat then String.eqb (String.substring (n - m) m s) suffix
  else false.

(** [s.split('@')[0]]: the part of [s] before its first at sign. *)
Fixpoint beforeAt (s : string) : string :=
  match s with
  | EmptyString => EmptyString
  | String c s' =>
      if Ascii.eqb c "@"%char then EmptyString else String c (beforeAt s')
  end.

(** A value that may be [null] or [undefined]. *)
Inductive opt (A : Type) : Type :=
| Null
| Undefined
| Val (a : A).
Arguments Null {A}.
Arguments Undefined {A}.
Arguments Val {A} a.

(** [x || d] for a string-valued [x]: the empty string is falsy. *)
Definition or_else (x : option string) (d : string) : string :=
  match x with
  | Some s => if String.eqb s "" then d else s
  | None => d
  end.

(** Truthiness of a possibly absent string. *)
Definition truthy (x : opt string) : bool :=
  match x with
  | Val s => negb (String.eqb s "")
  | _ => false
  end.

End Js.

(** ** The rate limiter ([class RateLimiter]) *)

Module RateLimiter.

Inductive LimitKey := messages | media | commands.

Record Limits := { perMinute : Z; perHour : Z; perDay : Z }.

(** [this.limits] *)
Record LimitTable := {
  lim_messages : Limits;
  lim_media : Limits;
  lim_commands : Limits
}.

Definition limitsFor (t : LimitTable) (k : LimitKey) : Limits :=
  match k with
  | messages => lim_messages t
  | media => lim_media t
  | commands => lim_commands t
  end.

Definition defaultLimits : LimitTable := {|
  lim_messages := {| perMinute := 20; perHour := 100; perDay := 500 |};
  lim_media := {| perMinute := 5; perHour := 30; perDay := 100 |};
  lim_commands := {| perMinute := 10; perHour := 50; perDay := 200 |}
|}.

(** [this.warningThresholds], in percent.  The code multiplies the minute
    limit by 0.8, 0.7 or 0.9 in double precision and takes the floor; on
    the configured limits (20, 5, 10) that is the integer computed here. *)
Definition warningThresholdPct (k : LimitKey) : Z :=
  match k with
  | messages => 80
  | media => 70
  | commands => 90
  end.

Inductive Severity := warning | soft | hard | severe.

(** The string the code uses for a severity. *)
Definition tag (s : Severity) : string :=
  match s with
  | warning => "warning"
  | soft => "soft"
  | hard => "hard"
  | severe => "severe"
  end.

(** [this.blockDurations] *)
Definition blockDurations (s : Severity) : Z :=
  match s with
  | warning => 0
  | soft => 5 * 60 * 1000
  | hard => 30 * 60 * 1000
  | severe => 2 * 60 * 60 * 1000
  end.

Inductive WindowKind := PerMinute | PerHour | PerDay.

Record Violation := { v_type : WindowKind; v_count : Z; v_limit : Z }.

(** The per-key record kept in [this.userLimits]. *)
Record UserData := {
  ud_messages : list Z;
  ud_media : list Z;
  ud_commands : list Z;
  lastWarning : Z;
  warningCount : Z
}.

Definition freshUserData : UserData :=
  {| ud_messages := []; ud_media := []; ud_commands := [];
     lastWarning := 0; warningCount := 0 |}.

(** [userData[limitKey]] *)
Definition actions (ud : UserData) (k : LimitKey) : list Z :=
  match k with
  | messages => ud_messages ud
  | media => ud_media ud
  | commands => ud_commands ud
  end.

(** [userData[limitKey] = l] *)
Definition setActions (ud : UserData) (k : LimitKey) (l : list Z) : UserData :=
  match k with
  | messages =>
      {| ud_messages := l; ud_media := ud_media ud; ud_commands := ud_commands ud;
         lastWarning := lastWarning ud; warningCount := warningCount ud |}
  | media =>
      {| ud_messages := ud_messages ud; ud_media := l; ud_commands := ud_commands ud;
         lastWarning := lastWarning ud; warningCount := warningCount ud |}
  | commands =>
      {| ud_messages := ud_messages ud; ud_media := ud_media ud; ud_commands := l;
         lastWarning := lastWarning ud; warningCount := warningCount ud |}
  end.

(** The record stored in [this.blockedUsers].  [reason] keeps the
    violation whose count, limit and window kind the code interpolates
    into the reason text. *)
Record BlockInfo := {
  blockedAt : Z;
  duration : Z;
  reason : Violation;
  violations : list Violation;
  messageType : string
}.

Record t := {
  userLimits : gmap string UserData;
  blockedUsers : gmap string BlockInfo;
  limits : LimitTable
}.

(** [new RateLimiter()] *)
Definition create : t :=
  {| userLimits := ∅; blockedUsers := ∅; limits := defaultLimits |}.

(** The result object of [canSendMessage]. *)
Inductive Decision :=
| Allowed
| AllowedWarning (count limit : Z)
| BlockedExisting (blockInfo : option BlockInfo)
| BlockedViolation (severity : Severity) (blockDuration : Z)
    (violations : list Violation).

Definition allowed (d : Decision) : bool :=
  match d with
  | Allowed | AllowedWarning _ _ => true
  | _ => false
  end.

(** [`${userJid}:${messageType}`] *)
Definition userKey (userJid messageType : string) : string :=
  (userJid ++ ":" ++ messageType)%string.

(** [actions.filter(time => time > cutoff).length] *)
Definition countSince (l : list Z) (cutoff : Z) : Z :=
  Z.of_nat (length (filter (λ time, cutoff < time) l)).

(** [count / limit >= num / den] for [0 < den].  The quotient of the code
    is a double; on integers below 2^52 the comparison with 2, 1.5 and 1
    has the outcome of the exact one.  A zero limit gives an infinity or
    NaN, a negative one reverses the order. *)
Definition ratio_ge (count limit num den : Z) : bool :=
  if 0 <? limit then num * limit <=? den * count
  else if limit =? 0 then 0 <? count
  else den * count <=? num * limit.

Definition getViolationSeverity (v : Violation) : Severity :=
  if ratio_ge (v_count v) (v_limit v) 2 1 then severe
  else if ratio_ge (v_count v) (v_limit v) 3 2 then hard
  else if ratio_ge (v_count v) (v_limit v) 1 1 then soft
  else warning.

Definition checkLimits (ud : UserData) (k : LimitKey) (lim : Limits) (now : Z)
  : list Violation :=
  let acts := actions ud k in
  let minuteAgo := now - 60 * 1000 in
  let nMinute := countSince acts minuteAgo in
  let hourAgo := now - 60 * 60 * 1000 in
  let nHour := countSince acts hourAgo in
  let dayAgo := now - 24 * 60 * 60 * 1000 in
  let nDay := countSince acts dayAgo in
  (if perMinute lim <=? nMinute
   then [ {| v_type := PerMinute; v_count := nMinute; v_limit := perMinute lim |} ]
   else [])
  ++ (if perHour lim <=? nHour
      then [ {| v_type := PerHour; v_count := nHour; v_limit := perHour lim |} ]
      else [])
  ++ (if perDay lim <=? nDay
      then [ {| v_type := PerDay; v_count := nDay; v_limit := perDay lim |} ]
      else []).

(** The callback of [violations.reduce] in [handleViolations]: the two
    severities are compared as the strings they are. *)
Definition pickMax (max v : Violation) : Violation :=
  if Js.str_gt (tag (getViolationSeverity v)) (tag (getViolationSeverity max))
  then v else max.

(** [violations.reduce(pickMax)] on the array [v0 :: vs]. *)
Definition maxViolation (v0 : Violation) (vs : list Violation) : Violation :=
  fold_left pickMax vs v0.

(** [handleViolations], called with the non-empty array [v0 :: vs]. *)
Definition handleViolations (rl : t) (userJid : string) (v0 : Violation)
    (vs : list Violation) (mtype : string) (now : Z) : Decision * t :=
  let m := maxViolation v0 vs in
  let severity := getViolationSeverity m in
  let blockDuration := blockDurations severity in
  let info := {| blockedAt := now; duration := blockDuration; reason := m;
                 violations := v0 :: vs; messageType := mtype |} in
  (BlockedViolation severity blockDuration (v0 :: vs),
   {| userLimits := userLimits rl;
      blockedUsers := <[userJid := info]> (blockedUsers rl);
      limits := limits rl |}).

(** [shouldWarn]: the warning, if any, and the updated record. *)
Definition shouldWarn (ud : UserData) (k : LimitKey) (lim : Limits) (now : Z)
  : option (Z * Z) * UserData :=
  let acts := actions ud k in
  let minuteAgo := now - 60 * 1000 in
  let nMinute := countSince acts minuteAgo in
  let minuteThreshold := (perMinute lim * warningThresholdPct k) / 100 in
  if ((minuteThreshold <=? nMinute) && (5 * 60 * 1000 <? now - lastWarning ud))%bool
  then (Some (nMinute, perMinute lim),
        {| ud_messages := ud_messages ud; ud_media := ud_media ud;
           ud_commands := ud_commands ud;
           lastWarning := now; warningCount := warningCount ud + 1 |})
  else (None, ud).

(** [isBlocked]: the answer, and the registry after the lazy deletion. *)
Definition isBlocked (rl : t) (userJid : string) (now : Z) : bool * t :=
  match blockedUsers rl !! userJid with
  | None => (false, rl)
  | Some blockInfo =>
      let unblockTime := blockedAt blockInfo + duration blockInfo in
      if unblockTime <=? now
      then (false,
            {| userLimits := userLimits rl;
               blockedUsers := delete userJid (blockedUsers rl);
               limits := limits rl |})
      else (true, rl)
  end.

Definition getBlockInfo (rl : t) (userJid : string) : option BlockInfo :=
  blockedUsers rl !! userJid.

Definition cleanOldEntries (ud : UserData) (k : LimitKey) (now : Z) : UserData :=
  let cutoff := now - 24 * 60 * 60 * 1000 in
  setActions ud k (filter (λ time, cutoff < time) (actions ud k)).

Definition withUserData (rl : t) (key : string) (ud : UserData) : t :=
  {| userLimits := <[key := ud]> (userLimits rl);
     blockedUsers := blockedUsers rl;
     limits := limits rl |}.

(** [canSendMessage(userJid, messageType)] at the instant [now]. *)
Definition canSendMessage (rl : t) (userJid mtype : string) (now : Z)
  : Decision * t :=
  let key := userKey userJid mtype in
  let '(blocked, rl) := isBlocked rl userJid now in
  if blocked then (BlockedExisting (getBlockInfo rl userJid), rl)
  else
    let ud0 := default freshUserData (userLimits rl !! key) in
    let limitKey := if String.eqb mtype "media" then media else messages in
    let lim := limitsFor (limits rl) limitKey in
    let ud1 := cleanOldEntries ud0 limitKey now in
    match checkLimits ud1 limitKey lim now with
    | v0 :: vs => handleViolations (withUserData rl key ud1) userJid v0 vs mtype now
    | [] =>
        let '(w, ud2) := shouldWarn ud1 limitKey lim now in
        match w with
        | Some (n, l) => (AllowedWarning n l, withUserData rl key ud2)
        | None => (Allowed, withUserData rl key ud2)
        end
    end.

(** [recordAction(userJid, actionType, messageType)] at the instant [now]. *)
Definition recordAction (rl : t) (userJid actionType mtype : string) (now : Z) : t :=
  let key := userKey userJid mtype in
  let ud := default freshUserData (userLimits rl !! key) in
  let limitKey :=
    if String.eqb actionType "command" then commands
    else if String.eqb mtype "media" then media else messages in
  withUserData rl key (setActions ud limitKey (actions ud limitKey ++ [now])).

(** [cleanupBlockedUsers], the periodic sweep. *)
Definition cleanupBlockedUsers (rl : t) (now : Z) : t :=
  {| userLimits := userLimits rl;
     blockedUsers :=
       filter (λ kv : string * BlockInfo, now < blockedAt kv.2 + duration kv.2)
              (blockedUsers rl);
     limits := limits rl |}.

(** An element of the array [getBlockedUsers] returns. *)
Record BlockedEntry := {
  be_userJid : string;
  be_reason : Violation;
  remainingTime : Z;
  be_blockedAt : Z
}.

Definition blockedEntry (now : Z) (kv : string * BlockInfo) : BlockedEntry :=
  {| be_userJid := kv.1;
     be_reason := reason kv.2;
     remainingTime := Z.max 0 (blockedAt kv.2 + duration kv.2 - now);
     be_blockedAt := blockedAt kv.2 |}.

Definition getBlockedUsers (rl : t) (now : Z) : list BlockedEntry :=
  blockedEntry now <$> map_to_list (blockedUsers rl).

End RateLimiter.

(** ** The store ([class DatabaseManager] over the tables of [schema.sql]) *)

Module Store.

(** A row of [messages], as [extractMessageData] builds it.  [timestamp] is
    the instant (in milliseconds) whose ISO text the row holds. *)
Record MessageData := {
  message_id : string;
  jid : string;
  sender_jid : string;
  message_type : string;
  content : Js.opt string;
  media_url : Js.opt string;
  media_type : Js.opt string;
  timestamp : Z;
  is_group : bool;
  group_jid : Js.opt string;
  reply_to : Js.opt string;
  is_forwarded : bool
}.

(** A row of [triggers]. *)
Record TriggerRow := {
  keyword : string;
  response : string;
  is_active : bool;
  match_type : string;
  case_sensitive : bool
}.

(** A row of [spam_logs]. *)
Record SpamLog := {
  sl_user_jid : string;
  sl_message_id : string;
  sl_reason : string;
  sl_severity : string;
  sl_action_taken : string
}.

(** A row of [bot_logs]; the context object is kept as its fields. *)
Record BotLog := {
  bl_level : string;
  bl_message : string;
  bl_context : list (string * string)
}.

(** A row of [users]. *)
Record UserRow := { u_phone : string; u_message_count : Z }.

Record t := {
  messagesTable : list MessageData;
  triggersTable : list TriggerRow;
  spamLogsTable : list SpamLog;
  botLogsTable : list BotLog;
  usersTable : gmap string UserRow
}.

Definition empty : t :=
  {| messagesTable := []; triggersTable := []; spamLogsTable := [];
     botLogsTable := []; usersTable := ∅ |}.

Definition hasMessage (db : t) (mid : string) : bool :=
  existsb (λ r, String.eqb (message_id r) mid) (messagesTable db).

(** [saveMessage]: [INSERT OR IGNORE], [message_id] being [UNIQUE]. *)
Definition saveMessage (db : t) (md : MessageData) : t :=
  if hasMessage db (message_id md) then db
  else {| messagesTable := messagesTable db ++ [md];
          triggersTable := triggersTable db;
          spamLogsTable := spamLogsTable db;
          botLogsTable := botLogsTable db;
          usersTable := usersTable db |}.

(** [createUser]: [INSERT OR REPLACE], the counter restarts at its default. *)
Definition createUser (db : t) (ujid phone : string) : t :=
  {| messagesTable := messagesTable db;
     triggersTable := triggersTable db;
     spamLogsTable := spamLogsTable db;
     botLogsTable := botLogsTable db;
     usersTable := <[ujid := {| u_phone := phone; u_message_count := 0 |}]> (usersTable db) |}.

(** [updateUserActivity] *)
Definition updateUserActivity (db : t) (ujid : string) : t :=
  {| messagesTable := messagesTable db;
     triggersTable := triggersTable db;
     spamLogsTable := spamLogsTable db;
     botLogsTable := botLogsTable db;
     usersTable :=
       alter (λ r, {| u_phone := u_phone r; u_message_count := u_message_count r + 1 |})
             ujid (usersTable db) |}.

(** [getActiveTriggers]: the rows come back in insertion order. *)
Definition getActiveTriggers (db : t) : list TriggerRow :=
  List.filter is_active (triggersTable db).

Definition hasKeyword (db : t) (kw : string) : bool :=
  existsb (λ r, String.eqb (keyword r) kw) (triggersTable db).

Definition withTriggers (db : t) (rows : list TriggerRow) : t :=
  {| messagesTable := messagesTable db;
     triggersTable := rows;
     spamLogsTable := spamLogsTable db;
     botLogsTable := botLogsTable db;
     usersTable := usersTable db |}.

(** [addTrigger]: a plain [INSERT]; [keyword] is [UNIQUE], so the statement
    is rejected ([None]) when the keyword is already in the table.  The new
    row takes the default [is_active = 1]. *)
Definition addTrigger (db : t) (kw resp mtype : string) (cs : bool) : option t :=
  if hasKeyword db kw then None
  else Some (withTriggers db
               (triggersTable db ++
                [ {| keyword := kw; response := resp; is_active := true;
                     match_type := mtype; case_sensitive := cs |} ])).

(** [removeTrigger]: [DELETE ... WHERE keyword = ?]; deleting no row is not
    an error. *)
Definition removeTrigger (db : t) (kw : string) : t :=
  withTriggers db (List.filter (λ r, negb (String.eqb (keyword r) kw)) (triggersTable db)).

(** [logSpam] *)
Definition logSpam (db : t) (ujid mid reason severity action : string) : t :=
  {| messagesTable := messagesTable db;
     triggersTable := triggersTable db;
     spamLogsTable :=
       spamLogsTable db ++
       [ {| sl_user_jid := ujid; sl_message_id := mid; sl_reason := reason;
            sl_severity := severity; sl_action_taken := action |} ];
     botLogsTable := botLogsTable db;
     usersTable := usersTable db |}.

(** [log] *)
Definition log (db : t) (level message : string) (ctx : list (string * string)) : t :=
  {| messagesTable := messagesTable db;
     triggersTable := triggersTable db;
     spamLogsTable := spamLogsTable db;
     botLogsTable :=
       botLogsTable db ++
       [ {| bl_level := level; bl_message := message; bl_context := ctx |} ];
     usersTable := usersTable db |}.

End Store.

(** ** The message handler ([class MessageHandler]) *)

Module MessageHandler.

Import Store.

(** *** Raw events, as the transport delivers them.  An absent property is
    [None]. *)

Record MediaMessage := {
  caption : option string;
  url : option string;
  mimetype : option string
}.

Record ContextInfo := { stanzaId : option string; isForwarded : option bool }.

Record ExtendedTextMessage := {
  text : option string;
  contextInfo : option ContextInfo
}.

Record MessageBody := {
  conversation : option string;
  extendedTextMessage : option ExtendedTextMessage;
  imageMessage : option MediaMessage;
  videoMessage : option MediaMessage;
  audioMessage : option MediaMessage;
  documentMessage : option MediaMessage;
  stickerMessage : option MediaMessage
}.

Record MessageKey := {
  id : string;
  remoteJid : string;
  participant : option string;
  fromMe : bool
}.

Record RawMessage := {
  key : MessageKey;
  message : option MessageBody;
  messageTimestamp : option Z
}.

(** The outcome of a call that may throw. *)
Inductive result (A : Type) : Type :=
| Ok (a : A)
| Throw (error : string).
Arguments Ok {A} a.
Arguments Throw {A} error.

(** A property read that yields [undefined] when the property is absent. *)
Definition prop (x : option string) : Js.opt string :=
  match x with
  | Some s => Js.Val s
  | None => Js.Undefined
  end.

(** [new Date(ms)] is a valid date within 8.64e15 milliseconds of the epoch. *)
Definition validDate (ms : Z) : bool :=
  (-8640000000000000 <=? ms) && (ms <=? 8640000000000000).

(** [new Date(message.messageTimestamp * 1000).toISOString()]: the instant
    the text denotes, or the [RangeError] of an invalid date (an absent
    timestamp multiplies to [NaN]). *)
Definition isoTimestamp (ts : option Z) : result Z :=
  match ts with
  | Some s => if validDate (s * 1000) then Ok (s * 1000)
              else Throw "RangeError: Invalid time value"
  | None => Throw "RangeError: Invalid time value"
  end.

(** The four variables the chain of tests in [extractMessageData] assigns:
    content, mediaUrl, mediaType, messageType. *)
Definition payload (m : option MessageBody)
  : Js.opt string * Js.opt string * Js.opt string * string :=
  let none := (Js.Val ""%string, Js.Null, Js.Null, "text"%string) in
  let withCaption (kind : string) (p : MediaMessage) :=
    (Js.Val (Js.or_else (caption p) ""), prop (url p), prop (mimetype p), kind) in
  let noCaption (kind : string) (p : MediaMessage) :=
    (Js.Val ""%string, prop (url p), prop (mimetype p), kind) in
  match m with
  | None => none
  | Some b =>
      if negb (String.eqb (Js.or_else (conversation b) "") "")
      then (prop (conversation b), Js.Null, Js.Null, "text"%string)
      else match extendedTextMessage b with
      | Some e => (prop (text e), Js.Null, Js.Null, "text"%string)
      | None =>
      match imageMessage b with
      | Some p => withCaption "image"%string p
      | None =>
      match videoMessage b with
      | Some p => withCaption "video"%string p
      | None =>
      match audioMessage b with
      | Some p => noCaption "audio"%string p
      | None =>
      match documentMessage b with
      | Some p => withCaption "document"%string p
      | None =>
      match stickerMessage b with
      | Some p => noCaption "sticker"%string p
      | None => none
      end end end end end end
  end.

(** [message.message?.extendedTextMessage?.contextInfo] *)
Definition quotedContext (m : option MessageBody) : option ContextInfo :=
  b ← m; e ← extendedTextMessage b; contextInfo e.

Definition extractMessageData (raw : RawMessage) (senderJid : string)
    (isGroup : bool) (groupJid : Js.opt string) : result MessageData :=
  let messageId := id (key raw) in
  let '(content, mediaUrl, mediaType, messageType) := payload (message raw) in
  match isoTimestamp (messageTimestamp raw) with
  | Throw e => Throw e
  | Ok ts =>
      Ok {| message_id := messageId;
            jid := senderJid;
            sender_jid := Js.or_else (participant (key raw)) senderJid;
            message_type := messageType;
            content := content;
            media_url := mediaUrl;
            media_type := mediaType;
            timestamp := ts;
            is_group := isGroup;
            group_jid := groupJid;
            reply_to :=
              match quotedContext (message raw) ≫= stanzaId with
              | Some s => if String.eqb s "" then Js.Null else Js.Val s
              | None => Js.Null
              end;
            is_forwarded :=
              default false (quotedContext (message raw) ≫= isForwarded) |}
  end.

(** *** The handler and the transport it dispatches through *)

(** A call of [whatsapp.sendText(jid, text)].  The method has two
    parameters; a third argument is not read. *)
Record Outgoing := { to : string; body : string }.

Record t := {
  db : Store.t;
  triggers : list TriggerRow;
  dispatched : list Outgoing;
  connected : bool;
  spamThreshold : Z
}.

(** [new MessageHandler(whatsapp)] over a store, with the default
    [config.moderation.spamThreshold]. *)
Definition create (store : Store.t) (isConnected : bool) : t :=
  {| db := store; triggers := []; dispatched := []; connected := isConnected;
     spamThreshold := 5 |}.

Definition withDb (h : t) (store : Store.t) : t :=
  {| db := store; triggers := triggers h; dispatched := dispatched h;
     connected := connected h; spamThreshold := spamThreshold h |}.

Definition withSnapshot (h : t) (rows : list TriggerRow) : t :=
  {| db := db h; triggers := rows; dispatched := dispatched h;
     connected := connected h; spamThreshold := spamThreshold h |}.

(** [whatsapp.sendText]: the call is dispatched; it throws ([false]) when
    the transport is not connected. *)
Definition sendText (h : t) (target message : string) : bool * t :=
  (connected h,
   {| db := db h; triggers := triggers h;
      dispatched := dispatched h ++ [ {| to := target; body := message |} ];
      connected := connected h; spamThreshold := spamThreshold h |}).

Definition saveMessageToDatabase (h : t) (md : MessageData) : t :=
  withDb h (Store.saveMessage (db h) md).

Definition updateUserActivity (h : t) (ujid : string) : t :=
  withDb h (Store.updateUserActivity
              (Store.createUser (db h) ujid (Js.beforeAt ujid)) ujid).

Definition loadTriggers (h : t) : t :=
  withSnapshot h (Store.getActiveTriggers (db h)).

Section Runtime.

(** [new RegExp(pattern, caseSensitive ? 'g' : 'gi').test(subject)], or
    [None] when the pattern does not compile. *)
Variable regexTest : string → bool → string → option bool.

(** Whether SQLite finds the stored timestamp text of an instant greater
    than the text of [datetime("now", "-5 minutes")] at the instant [now]. *)
Variable sqlAfter : Z → Z → bool.

(** The body of the loop of [processTriggers] up to [shouldRespond], on the
    message text [raw]; [None] is the [continue] of an invalid pattern. *)
Definition shouldRespond (trigger : TriggerRow) (raw : string) : option bool :=
  let lowered := Js.toLowerCase raw in
  if String.eqb (match_type trigger) "exact" then
    let triggerWord :=
      if case_sensitive trigger then keyword trigger
      else Js.toLowerCase (keyword trigger) in
    let messageWord := if case_sensitive trigger then raw else lowered in
    Some (String.eqb messageWord triggerWord)
  else if String.eqb (match_type trigger) "contains" then
    let kw :=
      if case_sensitive trigger then keyword trigger
      else Js.toLowerCase (keyword trigger) in
    Some (Js.includes lowered kw)
  else if String.eqb (match_type trigger) "regex" then
    regexTest (keyword trigger) (case_sensitive trigger) raw
  else Some false.

(** One iteration of the loop of [processTriggers]. *)
Definition respond (md : MessageData) (raw : string) (h : t) (trigger : TriggerRow) : t :=
  match shouldRespond trigger raw with
  | Some true =>
      let '(sent, h1) := sendText h (jid md) (response trigger) in
      if sent then
        withDb h1 (Store.log (db h1) "info" "Trigger response sent"
                     [("trigger", keyword trigger); ("response", response trigger);
                      ("to", jid md)]%string)
      else h1
  | _ => h
  end.

Definition processTriggers (h : t) (md : MessageData) : t :=
  if Js.truthy (content md) then
    match content md with
    | Js.Val raw => fold_left (respond md raw) (triggers h) h
    | _ => h
    end
  else h.

(** [collectData] writes to [collected_data] only, and only when a
    collection flag of the configuration is set; that table is not part of
    the modelled store. *)
Definition collectData (h : t) (md : MessageData) : t := h.

(** The count the query of [checkSpam] returns. *)
Definition recentCount (store : Store.t) (userJid : string) (now : Z) : Z :=
  Z.of_nat (length (List.filter
    (λ r, String.eqb (sender_jid r) userJid && sqlAfter now (timestamp r))
    (messagesTable store))).

Definition spamWarningText (userJid : string) : string :=
  ("⚠️ @" ++ Js.beforeAt userJid
   ++ ", please slow down your messages to avoid being flagged as spam.")%string.

Definition checkSpam (h : t) (md : MessageData) (now : Z) : t :=
  let userJid := sender_jid md in
  let messageCount := recentCount (db h) userJid now in
  if spamThreshold h <? messageCount then
    let h1 := withDb h (Store.logSpam (db h) userJid (message_id md)
                          "High message frequency" "medium" "flagged") in
    if is_group md then (sendText h1 (jid md) (spamWarningText userJid)).2
    else h1
  else h.

Definition processMessage (h : t) (raw : RawMessage) (now : Z) : result t :=
  let messageId := id (key raw) in
  let senderJid := remoteJid (key raw) in
  let isGroup := Js.endsWith senderJid "@g.us" in
  let groupJid := if isGroup then Js.Val senderJid else Js.Null in
  let participantJid := Js.or_else (participant (key raw)) senderJid in
  if fromMe (key raw) then Ok h
  else
    match extractMessageData raw senderJid isGroup groupJid with
    | Throw e => Throw e
    | Ok md =>
        let h1 := saveMessageToDatabase h md in
        let h2 := updateUserActivity h1 participantJid in
        let h3 := processTriggers h2 md in
        let h4 := collectData h3 md in
        let h5 := checkSpam h4 md now in
        Ok (withDb h5 (Store.log (db h5) "info" "Message processed"
                         [("messageId", messageId); ("sender", participantJid);
                          ("isGroup", if isGroup then "true" else "false");
                          ("type", message_type md)]%string))
    end.

(** The callback [setupMessageProcessing] registers with the transport:
    an error of [processMessage] is caught and logged. *)
Definition onMessage (h : t) (raw : RawMessage) (now : Z) : t :=
  match processMessage h raw now with
  | Ok h' => h'
  | Throw e =>
      withDb h (Store.log (db h) "error" "Message processing failed"
                  [("error", e); ("messageId", id (key raw))]%string)
  end.

End Runtime.

(** [addTrigger]: [true] and the reloaded snapshot, or [false] when the
    store rejects the insertion. *)
Definition addTrigger (h : t) (kw resp mtype : string) (cs : bool) : bool * t :=
  match Store.addTrigger (db h) kw resp mtype cs with
  | Some store => (true, loadTriggers (withDb h store))
  | None => (false, h)
  end.

(** [removeTrigger] *)
Definition removeTrigger (h : t) (kw : string) : bool * t :=
  (true, loadTriggers (withDb h (Store.removeTrigger (db h) kw))).

(** What SQLite compares in the query of [checkSpam]: the stored text
    [YYYY-MM-DDTHH:MM:SS.sssZ] against [YYYY-MM-DD HH:MM:SS], byte by byte.
    The texts differ at the latest in their eleventh character, where [T]
    is above the space: the stored text is greater exactly when its
    calendar day is not before the day of the bound (for instants whose
    year has four digits). *)
Definition sqliteAfter (now ts : Z) : bool :=
  (now - 5 * 60 * 1000) / 86400000 <=? ts / 86400000.

(** An engine for stores without regex rules: no pattern compiles. *)
Definition noRegex (pattern : string) (cs : bool) (subject : string) : option bool :=
  None.

End MessageHandler.

(** ** Notions of the specification the statements below use *)

Module Spec.

Import RateLimiter.

(** The severity order of the specification: severe > hard > soft > warning. *)
Definition rank (s : Severity) : nat :=
  match s with
  | warning => 0
  | soft => 1
  | hard => 2
  | severe => 3
  end.

(** The order JavaScript puts on the four severity strings. *)
Definition textRank (s : Severity) : nat :=
  match s with
  | hard => 0
  | severe => 1
  | soft => 2
  | warning => 3
  end.

(** Window length: minute < hour < day. *)
Definition windowRank (w : WindowKind) : nat :=
  match w with
  | PerMinute => 0
  | PerHour => 1
  | PerDay => 2
  end.

(** The caller's protocol of section 4.3 of the specification, for text
    messages: ask for admission, and record the action when it is
    admitted.  [times] are the instants of the successive attempts. *)
Fixpoint checkThenRecord (rl : RateLimiter.t) (userJid : string) (times : list Z)
  : list Decision * RateLimiter.t :=
  match times with
  | [] => ([], rl)
  | now :: rest =>
      let '(d, rl1) := canSendMessage rl userJid "text" now in
      let rl2 := if allowed d then recordAction rl1 userJid "message" "text" now
                 else rl1 in
      let '(ds, rl3) := checkThenRecord rl2 userJid rest in
      (d :: ds, rl3)
  end.

(** The decision the code gives to an attempt of a sender who started from
    no activity and has [n] text messages recorded, all within the minute. *)
Definition expected (n : nat) : Decision :=
  if (n <? 16)%nat then Allowed
  else if (n =? 16)%nat then AllowedWarning 16 20
  else if (n <? 20)%nat then Allowed
  else BlockedViolation soft 300000
         [ {| v_type := PerMinute; v_count := 20; v_limit := 20 |} ].

(** The limiter [rl], with the default limits, holds no block for the
    sender, has the text messages [l] recorded for it, and last warned it
    at [lw]. *)
Definition tracks (rl : RateLimiter.t) (userJid : string) (l : list Z) (lw : Z) : Prop :=
  let ud := default freshUserData (userLimits rl !! userKey userJid "text") in
  ud_messages ud = l ∧ lastWarning ud = lw ∧
  blockedUsers rl !! userJid = None ∧ limits rl = defaultLimits.

(** The limiter [rl] with the command log under [key] replaced by [cmds]. *)
Definition withCommands (rl : RateLimiter.t) (key : string) (cmds : list Z) : RateLimiter.t :=
  {| userLimits := alter (λ ud, setActions ud commands cmds) key (userLimits rl);
     blockedUsers := blockedUsers rl;
     limits := limits rl |}.

(** [k] occurs in [s]. *)
Definition substring_of (k s : string) : Prop :=
  ∃ pre post : string, s = (pre ++ k ++ post)%string.

(** The number of stored messages of a sender in the five minutes up to
    [now]. *)
Definition windowCount (rows : list Store.MessageData) (sender : string) (now : Z) : Z :=
  Z.of_nat (length (List.filter
    (λ r, String.eqb (Store.sender_jid r) sender
          && (now - 5 * 60 * 1000 <? Store.timestamp r)
          && (Store.timestamp r <=? now))
    rows)).

(** The call of [extractMessageData] that [processMessage] makes. *)
Definition normalize (raw : MessageHandler.RawMessage)
  : MessageHandler.result Store.MessageData :=
  let senderJid := MessageHandler.remoteJid (MessageHandler.key raw) in
  let isGroup := Js.endsWith senderJid "@g.us" in
  MessageHandler.extractMessageData raw senderJid isGroup
    (if isGroup then Js.Val senderJid else Js.Null).

(** The rule fires on the text [raw]. *)
Definition fires (regexTest : string → bool → string → option bool)
    (raw : string) (rule : Store.TriggerRow) : bool :=
  match MessageHandler.shouldRespond regexTest rule raw with
  | Some true => true
  | _ => false
  end.

(** The responses of the rules of [rows] that fire on a message, in the
    order of [rows], addressed to the conversation of the message. *)
Definition responses (regexTest : string → bool → string → option bool)
    (rows : list Store.TriggerRow) (md : Store.MessageData)
  : list MessageHandler.Outgoing :=
  match Store.content md with
  | Js.Val raw =>
      if String.eqb raw "" then []
      else (λ rule, {| MessageHandler.to := Store.jid md;
                       MessageHandler.body := Store.response rule |})
             <$> List.filter (fires regexTest raw) rows
  | _ => []
  end.

(** The spam log entry and the warning reply of [checkSpam] for a message. *)
Definition spamEntry (md : Store.MessageData) : Store.SpamLog :=
  {| Store.sl_user_jid := Store.sender_jid md;
     Store.sl_message_id := Store.message_id md;
     Store.sl_reason := "High message frequency";
     Store.sl_severity := "medium";
     Store.sl_action_taken := "flagged" |}.

Definition spamWarning (md : Store.MessageData) : MessageHandler.Outgoing :=
  {| MessageHandler.to := Store.jid md;
     MessageHandler.body := MessageHandler.spamWarningText (Store.sender_jid md) |}.

End Spec.

(** ** The rest of the rate limiter: statistics and administration *)

Module RateLimiterAdmin.

Import RateLimiter.

(** The object [getUserStats] returns. *)
Record UserStats := {
  st_perHour : Z;
  st_perDay : Z;
  st_total : Z;
  st_lastWarning : Z;
  st_warningCount : Z;
  st_isBlocked : bool
}.

(** [getUserStats(userJid, messageType)]: [null] for an unknown key;
    otherwise the statistics, and the registry after the lookup
    [isBlocked] makes. *)
Definition getUserStats (rl : RateLimiter.t) (userJid mtype : string) (now : Z)
  : option UserStats * RateLimiter.t :=
  match userLimits rl !! userKey userJid mtype with
  | None => (None, rl)
  | Some userData =>
      let hourAgo := now - 60 * 60 * 1000 in
      let dayAgo := now - 24 * 60 * 60 * 1000 in
      let limitKey := if String.eqb mtype "media" then media else messages in
      let acts := actions userData limitKey in
      let '(blocked, rl') := isBlocked rl userJid now in
      (Some {| st_perHour := countSince acts hourAgo;
               st_perDay := countSince acts dayAgo;
               st_total := Z.of_nat (length acts);
               st_lastWarning := lastWarning userData;
               st_warningCount := warningCount userData;
               st_isBlocked := blocked |},
       rl')
  end.

(** The object [getGlobalStats] returns. *)
Record GlobalStats := {
  gs_totalUsers : Z;
  gs_blockedUsers : Z;
  gs_activeUsers : Z
}.

(** The test of the loop of [getGlobalStats]: some action of the record
    is less than an hour old. *)
Definition activeSince (hourAgo : Z) (userData : UserData) : bool :=
  (0 <? countSince (ud_messages userData) hourAgo)
  || (0 <? countSince (ud_media userData) hourAgo)
  || (0 <? countSince (ud_commands userData) hourAgo).

Definition getGlobalStats (rl : RateLimiter.t) (now : Z) : GlobalStats :=
  let hourAgo := now - 60 * 60 * 1000 in
  {| gs_totalUsers := Z.of_nat (size (userLimits rl));
     gs_blockedUsers := Z.of_nat (size (blockedUsers rl));
     gs_activeUsers :=
       Z.of_nat (length (List.filter (λ kv : string * UserData, activeSince hourAgo kv.2)
                                     (map_to_list (userLimits rl)))) |}.

(** [clearUserData(userJid)] *)
Definition clearUserData (rl : RateLimiter.t) (userJid : string) : RateLimiter.t :=
  {| userLimits :=
       delete (userKey userJid "media") (delete (userKey userJid "text") (userLimits rl));
     blockedUsers := delete userJid (blockedUsers rl);
     limits := limits rl |}.

End RateLimiterAdmin.

(** ** The rate limit kept in the store ([DatabaseManager.checkRateLimit]) *)

Module RateLimitTable.






End RateLimitTable.

(** ** Delivery of events by the transport ([class WhatsAppHandler]) and
    group updates *)

Module Delivery.

Import Store MessageHandler.

(** The listener of [messages.upsert] with the callback of the message
    handler registered: own messages are passed over, and every other
    message of the batch is handed to the callback.  Each message comes
    with the instant at which it is processed. *)
Definition upsert (regexTest : string → bool → string → option bool)
    (sqlAfter : Z → Z → bool) (h : MessageHandler.t)
    (batch : list (RawMessage * Z)) : MessageHandler.t :=
  fold_left
    (λ h (m : RawMessage * Z),
       if fromMe (key m.1) then h else onMessage regexTest sqlAfter h m.1 m.2)
    batch h.

(** A group event: [groups.update] entries carry no participants. *)
Record GroupUpdate := {
  gu_id : string;
  gu_participants : option (list string);
  gu_action : string
}.

Definition welcomeText (member : string) : string :=
  ("👋 Welcome to the group, @" ++ Js.beforeAt member ++ "!")%string.

(** The loop of [processGroupUpdate] over the participants; [false] when a
    send has thrown, which ends the whole function. *)
Fixpoint greet (h : MessageHandler.t) (groupJid action : string)
    (members : list string) : bool * MessageHandler.t :=
  match members with
  | [] => (true, h)
  | member :: rest =>
      if String.eqb action "add" then
        let '(sent, h1) := sendText h groupJid (welcomeText member) in
        if sent then
          greet (withDb h1 (Store.log (db h1) "info" "New member joined group"
                              [("group", groupJid); ("member", member)]%string))
                groupJid action rest
        else (false, h1)
      else if String.eqb action "remove" then
        greet (withDb h (Store.log (db h) "info" "Member left group"
                           [("group", groupJid); ("member", member)]%string))
              groupJid action rest
      else greet h groupJid action rest
  end.

(** [processGroupUpdate], on the modelled state.  What follows the loop
    (the member count of the group) touches the group tables only, and
    every error is caught. *)
Definition processGroupUpdate (h : MessageHandler.t) (update : GroupUpdate)
  : MessageHandler.t :=
  match gu_participants update with
  | Some members => (greet h (gu_id update) (gu_action update) members).2
  | None => h
  end.

End Delivery.

(** A proof step for the case analyses on the payload of an event. *)
Ltac kind_facts :=
  simpl; split;
  [ by auto 10
  | split;
    [ first [ by intros | by intros [=] ]
    | first [ by intros H; exfalso; apply H | by intros _; eexists ] ] ].

(** ** Concrete states and events used by the examples below *)

Module Inputs.

Import RateLimiter Spec.

(** A registry holding one record, created at [1700000000000] for thirty
    minutes. *)
Definition halfHourBlock : BlockInfo :=
  {| blockedAt := 1700000000000; duration := 30 * 60 * 1000;
     reason := {| v_type := PerMinute; v_count := 30; v_limit := 20 |};
     violations := [ {| v_type := PerMinute; v_count := 30; v_limit := 20 |} ];
     messageType := "text" |}.

Definition oneBlocked : RateLimiter.t :=
  {| userLimits := ∅;
     blockedUsers := {[ "491700@s.whatsapp.net"%string := halfHourBlock ]};
     limits := defaultLimits |}.

(** A sender with 100 text messages in the last hour, 20 of them in the
    last minute, seen at the instant [1700000000000]: the minute and the hour
    window are both exactly at their limit. *)
Definition tiedLimiter : RateLimiter.t :=
  {| userLimits :=
       {[ "491700@s.whatsapp.net:text"%string :=
            {| ud_messages := replicate 80 (1700000000000 - 1800000)
                              ++ replicate 20 (1700000000000 - 1000);
               ud_media := []; ud_commands := [];
               lastWarning := 0; warningCount := 0 |} ]};
     blockedUsers := ∅;
     limits := defaultLimits |}.

(** The same with 40 of the 100 messages in the last minute: twice the
    minute limit, and the hour limit exactly. *)
Definition burstLimiter : RateLimiter.t :=
  {| userLimits :=
       {[ "491700@s.whatsapp.net:text"%string :=
            {| ud_messages := replicate 60 (1700000000000 - 1800000)
                              ++ replicate 40 (1700000000000 - 1000);
               ud_media := []; ud_commands := [];
               lastWarning := 0; warningCount := 0 |} ]};
     blockedUsers := ∅;
     limits := defaultLimits |}.

(** Twenty-one attempts, one per second, from [1700000001000] on. *)
Definition everySecond : list Z :=
  (λ k, 1700000000000 + 1000 * Z.of_nat k) <$> seq 1 21.

(** A limiter that has recorded ten commands of one sender, one per
    second, from [1700000001000] on. *)
Definition tenCommands : RateLimiter.t :=
  fold_left
    (λ rl k, recordAction rl "491700@s.whatsapp.net" "command" "text"
               (1700000000000 + 1000 * Z.of_nat k))
    (seq 1 10) RateLimiter.create.

End Inputs.


Module Events.

Import Store MessageHandler.

Definition textBody (s : string) : MessageBody :=
  {| conversation := Some s; extendedTextMessage := None; imageMessage := None;
     videoMessage := None; audioMessage := None; documentMessage := None;
     stickerMessage := None |}.

(** A text event with the given id, conversation, group participant, text
    and timestamp (in seconds). *)
Definition textEvent (mid remote : string) (member : option string) (s : string)
    (seconds : option Z) : RawMessage :=
  {| key := {| id := mid; remoteJid := remote; participant := member; fromMe := false |};
     message := Some (textBody s);
     messageTimestamp := seconds |}.

Definition helpRule : TriggerRow :=
  {| keyword := "help"; response := "Hi"; is_active := true;
     match_type := "exact"; case_sensitive := false |}.

(** A connected handler whose store and snapshot hold the rule [helpRule]. *)
Definition helpHandler : MessageHandler.t :=
  loadTriggers
    (MessageHandler.create
       {| messagesTable := []; triggersTable := [helpRule]; spamLogsTable := [];
          botLogsTable := []; usersTable := ∅ |}
       true).


(** Six messages of one member of a group, ten seconds apart. *)
Definition groupEvent (k : nat) : RawMessage :=
  textEvent ("G-" ++ String (ascii_of_nat (48 + k)) "") "120363@g.us"
            (Some "491700@s.whatsapp.net"%string) "hello"
            (Some (1700000000 + 10 * Z.of_nat k)).

(** The handler after the first five of them, each processed at the instant
    of its timestamp. *)
Definition afterFive : MessageHandler.t :=
  fold_left
    (λ h k, onMessage noRegex sqliteAfter h (groupEvent k)
              (1000 * (1700000000 + 10 * Z.of_nat k)))
    (seq 1 5) (MessageHandler.create Store.empty true).

(** What the sixth of them and [helpFromBlocked] normalize to. *)
Definition sixthMessage : MessageData :=
  {| message_id := "G-6"; jid := "120363@g.us";
     sender_jid := "491700@s.whatsapp.net"; message_type := "text";
     content := Js.Val "hello"%string; media_url := Js.Null; media_type := Js.Null;
     timestamp := 1700000060000; is_group := true;
     group_jid := Js.Val "120363@g.us"%string; reply_to := Js.Null;
     is_forwarded := false |}.

Definition helpMessage : MessageData :=
  {| message_id := "MSG-1"; jid := "491700@s.whatsapp.net";
     sender_jid := "491700@s.whatsapp.net"; message_type := "text";
     content := Js.Val "help"%string; media_url := Js.Null; media_type := Js.Null;
     timestamp := 1700000060000; is_group := false;
     group_jid := Js.Null; reply_to := Js.Null;
     is_forwarded := false |}.

(** The echo of a message the account sent itself. *)
Definition ownEcho : RawMessage :=
  {| key := {| id := "MSG-0"; remoteJid := "491700@s.whatsapp.net";
               participant := None; fromMe := true |};
     message := Some (textBody "help");
     messageTimestamp := Some 1700000060 |}.


(** A rule that asks for the keyword with its capital letter. *)
Definition helloRule : TriggerRow :=
  {| keyword := "Hello"; response := "Hello to you"; is_active := true;
     match_type := "contains"; case_sensitive := true |}.

Definition helloHandler : MessageHandler.t :=
  loadTriggers
    (MessageHandler.create
       {| messagesTable := []; triggersTable := [helloRule]; spamLogsTable := [];
          botLogsTable := []; usersTable := ∅ |}
       true).

Definition helloWorld : RawMessage :=
  textEvent "MSG-2" "491700@s.whatsapp.net" None "Hello world" (Some 1700000060).

(** A text event that carries no timestamp. *)
Definition noTimestamp : RawMessage :=
  textEvent "MSG-3" "491700@s.whatsapp.net" None "hi" None.

End Events.

(** ** Further concrete states *)

Module MoreInputs.

Import RateLimiter.

(** A limiter that has recorded sixteen text messages of one sender, one
    per second, from [1700000001000] on. *)
Definition sixteenSent : RateLimiter.t :=
  fold_left
    (λ rl k, recordAction rl "491700@s.whatsapp.net" "message" "text"
               (1700000000000 + 1000 * Z.of_nat k))
    (seq 1 16) RateLimiter.create.

(** A rule whose pattern does not compile, between two rules for "help". *)
Definition brokenRule : Store.TriggerRow :=
  {| Store.keyword := "(help"; Store.response := "never";
     Store.is_active := true; Store.match_type := "regex";
     Store.case_sensitive := false |}.

Definition helpAgain : Store.TriggerRow :=
  {| Store.keyword := "help"; Store.response := "Again";
     Store.is_active := true; Store.match_type := "contains";
     Store.case_sensitive := false |}.

(** An image with a caption. *)
Definition captioned : MessageHandler.RawMessage :=
  {| MessageHandler.key :=
       {| MessageHandler.id := "IMG-1"; MessageHandler.remoteJid := "120363@g.us";
          MessageHandler.participant := Some "491700@s.whatsapp.net"%string;
          MessageHandler.fromMe := false |};
     MessageHandler.message :=
       Some {| MessageHandler.conversation := None;
               MessageHandler.extendedTextMessage := None;
               MessageHandler.imageMessage :=
                 Some {| MessageHandler.caption := Some "look"%string;
                         MessageHandler.url := Some "https://mmg.whatsapp.net/x"%string;
                         MessageHandler.mimetype := Some "image/jpeg"%string |};
               MessageHandler.videoMessage := None;
               MessageHandler.audioMessage := None;
               MessageHandler.documentMessage := None;
               MessageHandler.stickerMessage := None |};
     MessageHandler.messageTimestamp := Some 1700000060 |}.

Definition captionedRecord : Store.MessageData :=
  {| Store.message_id := "IMG-1"; Store.jid := "120363@g.us";
     Store.sender_jid := "491700@s.whatsapp.net"; Store.message_type := "image";
     Store.content := Js.Val "look"%string;
     Store.media_url := Js.Val "https://mmg.whatsapp.net/x"%string;
     Store.media_type := Js.Val "image/jpeg"%string;
     Store.timestamp := 1700000060000; Store.is_group := true;
     Store.group_jid := Js.Val "120363@g.us"%string; Store.reply_to := Js.Null;
     Store.is_forwarded := false |}.

(** Two members join a group. *)
Definition twoJoin : Delivery.GroupUpdate :=
  {| Delivery.gu_id := "120363@g.us";
     Delivery.gu_participants :=
       Some ["491700@s.whatsapp.net"; "491701@s.whatsapp.net"]%string;
     Delivery.gu_action := "add" |}.

Definition oneLeaves : Delivery.GroupUpdate :=
  {| Delivery.gu_id := "120363@g.us";
     Delivery.gu_participants := Some ["491700@s.whatsapp.net"%string];
     Delivery.gu_action := "remove" |}.

End MoreInputs.
(** ** Properties of the rate limiter *)

Module RateLimiterProps.

Import RateLimiter Spec Inputs.

Lemma elem_of_getBlockedUsers (rl : RateLimiter.t) (now : Z) (e : BlockedEntry) :
  e ∈ getBlockedUsers rl now ↔
  ∃ u info, blockedUsers rl !! u = Some info ∧ e = blockedEntry now (u, info).
Proof.
  unfold getBlockedUsers. rewrite list_elem_of_fmap. split.
  - intros [[u info] [-> Hin]]. apply elem_of_map_to_list in Hin. eauto.
  - intros (u & info & Hl & ->). exists (u, info). split; [done|].
    by apply elem_of_map_to_list.
Qed.

Lemma listed_iff_registered (rl : RateLimiter.t) (now : Z) (u : string) :
  u ∈ be_userJid <$> getBlockedUsers rl now ↔ is_Some (blockedUsers rl !! u).
Proof.
  rewrite list_elem_of_fmap. split.
  - intros (e & -> & He). apply elem_of_getBlockedUsers in He as (u' & info & Hl & ->).
    simpl. eauto.
  - intros [info Hl]. exists (blockedEntry now (u, info)). split; [done|].
    apply elem_of_getBlockedUsers. eauto.
Qed.

(** C10.  Every entry [getBlockedUsers] returns has a remaining time that is
    not negative, and a record that has expired but is still in the registry
    is reported with remaining time 0. *)
Theorem getBlockedUsers_remaining_clamped (rl : RateLimiter.t) (now : Z) :
  Forall (λ e, 0 ≤ remainingTime e) (getBlockedUsers rl now) ∧
  ∀ u info,
    blockedUsers rl !! u = Some info →
    blockedAt info + duration info ≤ now →
    {| be_userJid := u; be_reason := reason info; remainingTime := 0;
       be_blockedAt := blockedAt info |} ∈ getBlockedUsers rl now.
Proof.
  split.
  - apply Forall_forall. intros e He.
    apply elem_of_getBlockedUsers in He as (u & info & _ & ->). simpl. lia.
  - intros u info Hl Hexp. apply elem_of_getBlockedUsers.
    exists u, info. split; [done|]. unfold blockedEntry; simpl.
    f_equal. lia.
Qed.

Lemma getBlockedUsers_remaining_clamped_witness :
  Forall (λ e, 0 ≤ remainingTime e) (getBlockedUsers oneBlocked 1700001801000) ∧
  {| be_userJid := "491700@s.whatsapp.net"; be_reason := reason halfHourBlock;
     remainingTime := 0; be_blockedAt := blockedAt halfHourBlock |}
  ∈ getBlockedUsers oneBlocked 1700001801000.
Proof.
  destruct (getBlockedUsers_remaining_clamped oneBlocked 1700001801000) as [H1 H2].
  split; [exact H1|].
  apply (H2 "491700@s.whatsapp.net"%string halfHourBlock); [reflexivity|].
  vm_compute. discriminate.
Defined.

Lemma isBlocked_registered (rl : RateLimiter.t) (u : string) (info : BlockInfo) (now : Z) :
  blockedUsers rl !! u = Some info →
  isBlocked rl u now =
    if blockedAt info + duration info <=? now
    then (false, {| userLimits := userLimits rl;
                    blockedUsers := delete u (blockedUsers rl);
                    limits := limits rl |})
    else (true, rl).
Proof. intros Hl. unfold isBlocked. by rewrite Hl. Qed.

Lemma isBlocked_unregistered (rl : RateLimiter.t) (u : string) (now : Z) :
  blockedUsers rl !! u = None → isBlocked rl u now = (false, rl).
Proof. intros Hl. unfold isBlocked. by rewrite Hl. Qed.

Lemma cleanupBlockedUsers_lookup (rl : RateLimiter.t) (now : Z) (u : string) (info : BlockInfo) :
  blockedUsers (cleanupBlockedUsers rl now) !! u = Some info ↔
  blockedUsers rl !! u = Some info ∧ now < blockedAt info + duration info.
Proof. unfold cleanupBlockedUsers; simpl. by rewrite map_lookup_filter_Some. Qed.

(** C5, as the code has it.  For a sender with a block record created at
    [blockedAt] for the duration [d]: [isBlocked] answers true exactly when
    [now < blockedAt + d]; a lookup that finds the record expired deletes
    it; and once such a lookup, or the periodic sweep, has run at an instant
    at which the record is expired, the sender is absent from
    [getBlockedUsers].  (Before that the expired record is still listed.) *)
Theorem block_expiry (rl : RateLimiter.t) (u : string) (info : BlockInfo) (now : Z) :
  blockedUsers rl !! u = Some info →
  ((isBlocked rl u now).1 = true ↔ now < blockedAt info + duration info) ∧
  (blockedAt info + duration info ≤ now →
     blockedUsers (isBlocked rl u now).2 = delete u (blockedUsers rl) ∧
     (∀ later, u ∉ be_userJid <$> getBlockedUsers (isBlocked rl u now).2 later) ∧
     (∀ later, u ∉ be_userJid <$> getBlockedUsers (cleanupBlockedUsers rl now) later)) ∧
  (now < blockedAt info + duration info → (isBlocked rl u now).2 = rl).
Proof.
  intros Hl. rewrite (isBlocked_registered _ _ _ _ Hl).
  destruct (Z.leb_spec (blockedAt info + duration info) now) as [Hexp|Hlive]; simpl.
  - split; [|split].
    + split; [discriminate | lia].
    + intros _. split; [done|]. split.
      * intros later Hin. apply listed_iff_registered in Hin as [x Hx].
        simpl in Hx. by rewrite lookup_delete_eq in Hx.
      * intros later Hin. apply listed_iff_registered in Hin as [x Hx].
        apply cleanupBlockedUsers_lookup in Hx as [Hx Hlt].
        rewrite Hl in Hx. injection Hx as <-. lia.
    + lia.
  - split; [|split].
    + split; [done | done].
    + lia.
    + done.
Qed.

Lemma block_expiry_witness :
  ((isBlocked oneBlocked "491700@s.whatsapp.net" 1700001801000).1 = true
     ↔ 1700001801000 < blockedAt halfHourBlock + duration halfHourBlock) ∧
  (blockedUsers (isBlocked oneBlocked "491700@s.whatsapp.net" 1700001801000).2
     = delete "491700@s.whatsapp.net"%string (blockedUsers oneBlocked) ∧
   (∀ later, "491700@s.whatsapp.net"%string ∉
      be_userJid <$> getBlockedUsers
        (isBlocked oneBlocked "491700@s.whatsapp.net" 1700001801000).2 later) ∧
   (∀ later, "491700@s.whatsapp.net"%string ∉
      be_userJid <$> getBlockedUsers (cleanupBlockedUsers oneBlocked 1700001801000) later)) ∧
  (isBlocked oneBlocked "491700@s.whatsapp.net" 1700001799000).2 = oneBlocked.
Proof.
  destruct (block_expiry oneBlocked "491700@s.whatsapp.net"%string halfHourBlock
              1700001801000 eq_refl) as (Hiff & Hexpired & _).
  destruct (block_expiry oneBlocked "491700@s.whatsapp.net"%string halfHourBlock
              1700001799000 eq_refl) as (_ & _ & Hlive).
  split; [exact Hiff|]. split.
  - apply Hexpired. vm_compute. discriminate.
  - apply Hlive. reflexivity.
Defined.

(** The scenario of the specification on the code: the record is live one
    second before the thirty minutes are over and expired one second after. *)
Lemma isBlocked_half_hour :
  (isBlocked oneBlocked "491700@s.whatsapp.net" (1700000000000 + 1799000)).1 = true ∧
  (isBlocked oneBlocked "491700@s.whatsapp.net" (1700000000000 + 1801000)).1 = false.
Proof. split; reflexivity. Qed.

(** C5 as stated fails: one second after the thirty minutes of its block
    are over, and with no lookup or sweep in between, the sender is still
    in the list [getBlockedUsers] returns. *)
Lemma expired_block_still_listed :
  blockedUsers oneBlocked !! "491700@s.whatsapp.net"%string = Some halfHourBlock ∧
  blockedAt halfHourBlock + duration halfHourBlock < 1700001801000 ∧
  getBlockedUsers oneBlocked 1700001801000 =
    [ {| be_userJid := "491700@s.whatsapp.net";
         be_reason := reason halfHourBlock;
         remainingTime := 0;
         be_blockedAt := 1700000000000 |} ].
Proof. split; [reflexivity | split; [reflexivity | reflexivity]]. Qed.

(** *** The violation that decides a block *)

Lemma str_gt_tag (a b : Severity) :
  Js.str_gt (tag a) (tag b) = (textRank b <? textRank a)%nat.
Proof. by destruct a, b. Qed.

Lemma pickMax_cases (max v : Violation) :
  (textRank (getViolationSeverity max) < textRank (getViolationSeverity v))%nat
    ∧ pickMax max v = v
  ∨ (textRank (getViolationSeverity v) ≤ textRank (getViolationSeverity max))%nat
    ∧ pickMax max v = max.
Proof.
  unfold pickMax. rewrite str_gt_tag.
  destruct (Nat.ltb_spec (textRank (getViolationSeverity max))
                         (textRank (getViolationSeverity v))); [left | right]; done.
Qed.

(** The reduction keeps the earliest of the violations it ranks highest:
    everything before the chosen one ranks strictly below it. *)
Lemma maxViolation_split (rest before between : list Violation) (acc : Violation) :
  Forall (λ v, (textRank (getViolationSeverity v)
                < textRank (getViolationSeverity acc))%nat) before →
  Forall (λ v, (textRank (getViolationSeverity v)
                ≤ textRank (getViolationSeverity acc))%nat) between →
  ∃ pre post,
    before ++ acc :: between ++ rest = pre ++ maxViolation acc rest :: post ∧
    Forall (λ v, (textRank (getViolationSeverity v)
                  < textRank (getViolationSeverity (maxViolation acc rest)))%nat) pre.
Proof.
  revert before between acc.
  induction rest as [|v rest IH]; intros before between acc Hbefore Hbetween.
  - exists before, between. by rewrite app_nil_r.
  - unfold maxViolation; simpl. fold (maxViolation (pickMax acc v) rest).
    destruct (pickMax_cases acc v) as [[Hlt ->] | [Hle ->]].
    + destruct (IH (before ++ acc :: between) [] v) as (pre & post & Heq & Hpre).
      * apply Forall_app. split; [|constructor].
        -- eapply Forall_impl; [exact Hbefore|]. simpl. intros; lia.
        -- exact Hlt.
        -- eapply Forall_impl; [exact Hbetween|]. simpl. intros; lia.
      * constructor.
      * exists pre, post. split; [|exact Hpre].
        rewrite <- Heq. by rewrite <- app_assoc.
    + destruct (IH before (between ++ [v]) acc) as (pre & post & Heq & Hpre).
      * exact Hbefore.
      * apply Forall_app. split; [exact Hbetween|]. by repeat constructor.
      * exists pre, post. split; [|exact Hpre].
        rewrite <- Heq. by rewrite <- app_assoc.
Qed.

Lemma maxViolation_elem (v0 : Violation) (vs : list Violation) :
  maxViolation v0 vs ∈ v0 :: vs.
Proof.
  destruct (maxViolation_split vs [] [] v0) as (pre & post & Heq & _);
    [constructor | constructor |].
  simpl in Heq. rewrite Heq. apply elem_of_app. right. left.
Qed.

(** [checkLimits] lists its violations from the shortest window to the
    longest. *)
Lemma checkLimits_sorted (ud : UserData) (k : LimitKey) (lim : Limits) (now : Z) :
  StronglySorted (λ a b, (windowRank (v_type a) < windowRank (v_type b))%nat)
                 (checkLimits ud k lim now).
Proof.
  unfold checkLimits.
  repeat case_match; simpl; repeat constructor; simpl; lia.
Qed.

Lemma getViolationSeverity_ratio (v : Violation) :
  0 < v_limit v →
  (getViolationSeverity v = severe ↔ 2 * v_limit v ≤ v_count v) ∧
  (getViolationSeverity v = hard ↔
     3 * v_limit v ≤ 2 * v_count v ∧ v_count v < 2 * v_limit v) ∧
  (getViolationSeverity v = soft ↔
     v_limit v ≤ v_count v ∧ 2 * v_count v < 3 * v_limit v) ∧
  (getViolationSeverity v = warning ↔ v_count v < v_limit v).
Proof.
  intros Hpos. unfold getViolationSeverity, ratio_ge.
  destruct (Z.ltb_spec 0 (v_limit v)); [|lia].
  destruct (Z.leb_spec (2 * v_limit v) (1 * v_count v));
  destruct (Z.leb_spec (3 * v_limit v) (2 * v_count v));
  destruct (Z.leb_spec (1 * v_limit v) (1 * v_count v));
  repeat split; intros; try discriminate; try lia.
Qed.

(** C2, as the code has it.  A violation's severity is given by its
    count/limit ratio (at least 2 severe, at least 1.5 hard, at least 1
    soft, else warning).  When an admission check raises violations, the
    block it creates takes its severity, its duration and its reason from
    one of them, and among the raised violations that are as severe as that
    one, it is the one of the shortest window: minute before hour before
    day. *)
Theorem deciding_violation
    (rl : RateLimiter.t) (u mtype : string) (ud : UserData) (k : LimitKey)
    (lim : Limits) (now : Z) (v0 : Violation) (vs : list Violation) :
  checkLimits ud k lim now = v0 :: vs →
  let m := maxViolation v0 vs in
  let out := handleViolations rl u v0 vs mtype now in
  m ∈ v0 :: vs ∧
  out.1 = BlockedViolation (getViolationSeverity m)
            (blockDurations (getViolationSeverity m)) (v0 :: vs) ∧
  blockedUsers out.2 !! u =
    Some {| blockedAt := now; duration := blockDurations (getViolationSeverity m);
            reason := m; violations := v0 :: vs; messageType := mtype |} ∧
  (∀ v, v ∈ v0 :: vs →
        getViolationSeverity v = getViolationSeverity m →
        (windowRank (v_type m) ≤ windowRank (v_type v))%nat) ∧
  (∀ v, v ∈ v0 :: vs → 0 < v_limit v →
        (getViolationSeverity v = severe ↔ 2 * v_limit v ≤ v_count v) ∧
        (getViolationSeverity v = hard ↔
           3 * v_limit v ≤ 2 * v_count v ∧ v_count v < 2 * v_limit v) ∧
        (getViolationSeverity v = soft ↔
           v_limit v ≤ v_count v ∧ 2 * v_count v < 3 * v_limit v) ∧
        (getViolationSeverity v = warning ↔ v_count v < v_limit v)).
Proof.
  intros Hcheck m out.
  split; [apply maxViolation_elem|].
  split; [reflexivity|].
  split; [subst out; unfold handleViolations; simpl; apply lookup_insert_eq|].
  split.
  - intros v Hv Hsame.
    destruct (maxViolation_split vs [] [] v0) as (pre & post & Heq & Hpre);
      [constructor | constructor |].
    simpl in Heq. fold m in Heq, Hpre.
    pose proof (checkLimits_sorted ud k lim now) as Hsorted.
    rewrite Hcheck, Heq in Hsorted.
    rewrite Heq in Hv. apply elem_of_app in Hv as [Hv | Hv].
    + rewrite Forall_forall in Hpre. specialize (Hpre v Hv).
      rewrite Hsame in Hpre. lia.
    + apply elem_of_cons in Hv as [-> | Hv]; [lia|].
      apply StronglySorted_app_1_r in Hsorted.
      apply StronglySorted_inv in Hsorted as [_ Hpost].
      rewrite Forall_forall in Hpost. specialize (Hpost v Hv). simpl in Hpost. lia.
  - intros v _ Hpos. by apply getViolationSeverity_ratio.
Qed.

Lemma deciding_violation_witness :
  let vMinute := {| v_type := PerMinute; v_count := 20; v_limit := 20 |} in
  let vHour := {| v_type := PerHour; v_count := 100; v_limit := 100 |} in
  let m := maxViolation vMinute [vHour] in
  let out := handleViolations tiedLimiter "491700@s.whatsapp.net" vMinute [vHour]
               "text" 1700000000000 in
  m ∈ [vMinute; vHour] ∧
  out.1 = BlockedViolation (getViolationSeverity m)
            (blockDurations (getViolationSeverity m)) [vMinute; vHour] ∧
  blockedUsers out.2 !! "491700@s.whatsapp.net"%string =
    Some {| blockedAt := 1700000000000;
            duration := blockDurations (getViolationSeverity m);
            reason := m; violations := [vMinute; vHour]; messageType := "text" |} ∧
  (windowRank (v_type m) ≤ windowRank (v_type vHour))%nat ∧
  (getViolationSeverity vMinute = soft ↔
     v_limit vMinute ≤ v_count vMinute ∧ 2 * v_count vMinute < 3 * v_limit vMinute).
Proof.
  intros vMinute vHour m out.
  destruct (deciding_violation tiedLimiter "491700@s.whatsapp.net" "text"
              {| ud_messages := replicate 80 (1700000000000 - 1800000)
                                ++ replicate 20 (1700000000000 - 1000);
                 ud_media := []; ud_commands := [];
                 lastWarning := 0; warningCount := 0 |}
              messages (lim_messages defaultLimits) 1700000000000
              vMinute [vHour] eq_refl) as (H1 & H2 & H3 & H4 & H5).
  split; [exact H1|]. split; [exact H2|]. split; [exact H3|]. split.
  - apply (H4 vHour); [right; left | reflexivity].
  - apply (H5 vMinute); [left | reflexivity].
Defined.

(** C2 as stated fails on its tie-break: with the minute window at 20/20
    and the hour window at 100/100, both violations are soft, and the block
    is decided by the minute violation, not by the one of the longer
    window. *)
Lemma tie_keeps_shorter_window :
  let vMinute := {| v_type := PerMinute; v_count := 20; v_limit := 20 |} in
  let vHour := {| v_type := PerHour; v_count := 100; v_limit := 100 |} in
  let out := canSendMessage tiedLimiter "491700@s.whatsapp.net" "text" 1700000000000 in
  out.1 = BlockedViolation soft 300000 [vMinute; vHour] ∧
  getViolationSeverity vMinute = getViolationSeverity vHour ∧
  reason <$> blockedUsers out.2 !! "491700@s.whatsapp.net"%string = Some vMinute ∧
  (windowRank (v_type vMinute) < windowRank (v_type vHour))%nat.
Proof. repeat split; vm_compute; lia. Qed.

(** The severities are compared as strings, and ["soft"] is above
    ["severe"]: a minute window at twice its limit (severe, two hours) with
    the hour window exactly at its limit (soft) yields a soft block of five
    minutes. *)
Lemma severe_minute_loses_to_soft_hour :
  (rank soft < rank severe)%nat ∧
  Js.str_gt (tag soft) (tag severe) = true ∧
  getViolationSeverity {| v_type := PerMinute; v_count := 40; v_limit := 20 |} = severe ∧
  getViolationSeverity {| v_type := PerHour; v_count := 100; v_limit := 100 |} = soft ∧
  (canSendMessage burstLimiter "491700@s.whatsapp.net" "text" 1700000000000).1 =
    BlockedViolation soft 300000
      [ {| v_type := PerMinute; v_count := 40; v_limit := 20 |};
        {| v_type := PerHour; v_count := 100; v_limit := 100 |} ].
Proof. repeat split; vm_compute; try reflexivity; lia. Qed.

(** *** A burst of text messages within one minute *)

Lemma filter_all (P : Z → Prop) `{!∀ x, base.Decision (P x)} (l : list Z) :
  Forall P l → filter P l = l.
Proof.
  induction 1 as [|x l Hx _ IH]; [done|].
  by rewrite filter_cons_True, IH.
Qed.

Lemma countSince_all (l : list Z) (cutoff : Z) :
  Forall (λ time, cutoff < time) l → countSince l cutoff = Z.of_nat (length l).
Proof. intros H. unfold countSince. by rewrite filter_all. Qed.

Lemma tracks_withUserData (rl : RateLimiter.t) (u : string) (ud : UserData) :
  blockedUsers rl !! u = None → limits rl = defaultLimits →
  tracks (withUserData rl (userKey u "text") ud) u (ud_messages ud) (lastWarning ud).
Proof.
  intros Hb Hl. unfold tracks, withUserData; simpl.
  rewrite lookup_insert_eq. done.
Qed.

Lemma recordAction_tracks (rl : RateLimiter.t) (u : string) (l : list Z) (lw now : Z) :
  tracks rl u l lw →
  tracks (recordAction rl u "message" "text" now) u (l ++ [now]) lw.
Proof.
  intros (Hm & Hw & Hb & Hl). unfold recordAction.
  change (String.eqb "message" "command") with false.
  change (String.eqb "text" "media") with false. cbv iota.
  set (ud := default freshUserData (userLimits rl !! userKey u "text")) in *.
  pose proof (tracks_withUserData rl u
                (setActions ud messages (actions ud messages ++ [now])) Hb Hl) as H.
  rewrite <- Hm, <- Hw. exact H.
Qed.

(** An admission check of a sender whose recorded text messages, fewer than
    the minute limit, all lie within the last minute. *)
Lemma canSendMessage_below_limit
    (rl : RateLimiter.t) (u : string) (l : list Z) (lw now : Z) :
  tracks rl u l lw →
  Forall (λ time, now - 60000 < time) l →
  (length l < 20)%nat →
  let warn := (16 <=? Z.of_nat (length l)) && (300000 <? now - lw) in
  ∃ rl',
    canSendMessage rl u "text" now =
      (if warn then AllowedWarning (Z.of_nat (length l)) 20 else Allowed, rl') ∧
    tracks rl' u l (if warn then now else lw).
Proof.
  intros (Hm & Hw & Hb & Hl) Hin Hlen warn.
  unfold canSendMessage. rewrite (isBlocked_unregistered _ _ _ Hb).
  cbv beta iota. change (String.eqb "text" "media") with false. cbv iota.
  set (ud := default freshUserData (userLimits rl !! userKey u "text")) in *.
  assert (Hclean : cleanOldEntries ud messages now = ud).
  { unfold cleanOldEntries. simpl. rewrite filter_all.
    - by destruct ud.
    - rewrite Hm. eapply Forall_impl; [exact Hin|]. simpl. intros; lia. }
  rewrite Hclean, Hl. change (limitsFor defaultLimits messages) with (lim_messages defaultLimits).
  assert (Hcheck : checkLimits ud messages (lim_messages defaultLimits) now = []).
  { unfold checkLimits. simpl actions. rewrite Hm.
    rewrite !countSince_all;
      try (eapply Forall_impl; [exact Hin|]; simpl; intros; lia).
    simpl. repeat case_match; try done; lia. }
  rewrite Hcheck. unfold shouldWarn. simpl actions. rewrite Hm, Hw.
  rewrite countSince_all by (eapply Forall_impl; [exact Hin|]; simpl; intros; lia).
  change (perMinute (lim_messages defaultLimits) * warningThresholdPct messages / 100)
    with 16.
  change (5 * 60 * 1000) with 300000. fold warn.
  destruct warn.
  - eexists. split; [reflexivity|].
    pose proof (tracks_withUserData rl u
      {| ud_messages := ud_messages ud; ud_media := ud_media ud;
         ud_commands := ud_commands ud; lastWarning := now;
         warningCount := warningCount ud + 1 |} Hb Hl) as H.
    rewrite <- Hm. exact H.
  - eexists. split; [reflexivity|].
    pose proof (tracks_withUserData rl u ud Hb Hl) as H.
    rewrite <- Hm, <- Hw. exact H.
Qed.

(** The check made with the minute limit of 20 recorded messages in the
    last minute. *)
Lemma canSendMessage_at_limit
    (rl : RateLimiter.t) (u : string) (l : list Z) (lw now : Z) :
  tracks rl u l lw →
  Forall (λ time, now - 60000 < time) l →
  length l = 20%nat →
  (canSendMessage rl u "text" now).1 =
    BlockedViolation soft 300000
      [ {| v_type := PerMinute; v_count := 20; v_limit := 20 |} ].
Proof.
  intros (Hm & Hw & Hb & Hl) Hin Hlen.
  unfold canSendMessage. rewrite (isBlocked_unregistered _ _ _ Hb).
  cbv beta iota. change (String.eqb "text" "media") with false. cbv iota.
  set (ud := default freshUserData (userLimits rl !! userKey u "text")) in *.
  assert (Hclean : cleanOldEntries ud messages now = ud).
  { unfold cleanOldEntries. simpl. rewrite filter_all.
    - by destruct ud.
    - rewrite Hm. eapply Forall_impl; [exact Hin|]. simpl. intros; lia. }
  rewrite Hclean, Hl. change (limitsFor defaultLimits messages) with (lim_messages defaultLimits).
  assert (Hcheck : checkLimits ud messages (lim_messages defaultLimits) now =
                   [ {| v_type := PerMinute; v_count := 20; v_limit := 20 |} ]).
  { unfold checkLimits. simpl actions. rewrite Hm.
    rewrite !countSince_all;
      try (eapply Forall_impl; [exact Hin|]; simpl; intros; lia).
    rewrite Hlen. reflexivity. }
  rewrite Hcheck. reflexivity.
Qed.

Lemma checkThenRecord_in_minute (u : string) (lo : Z) :
  300000 < lo →
  ∀ (times : list Z) (rl : RateLimiter.t) (l : list Z) (lw : Z),
    tracks rl u l lw →
    Forall (λ time, lo ≤ time < lo + 60000) l →
    Forall (λ time, lo ≤ time < lo + 60000) times →
    (length l + length times ≤ 21)%nat →
    (if (length l <=? 16)%nat then lw = 0 else lo ≤ lw < lo + 60000) →
    (checkThenRecord rl u times).1 = expected <$> seq (length l) (length times).
Proof.
  intros Hlo. induction times as [|now rest IH]; intros rl l lw Htr Hl Htimes Hlen Hlw.
  - reflexivity.
  - apply Forall_cons in Htimes as [Hnow Hrest]. simpl in Hlen.
    assert (Hin : Forall (λ time, now - 60000 < time) l).
    { eapply Forall_impl; [exact Hl|]. simpl. intros; lia. }
    destruct (decide (length l = 20%nat)) as [H20 | Hn20].
    + assert (rest = []) as -> by (destruct rest; [done | simpl in Hlen; lia]).
      pose proof (canSendMessage_at_limit rl u l lw now Htr Hin H20) as Hd.
      simpl. destruct (canSendMessage rl u "text" now) as [d rl1].
      simpl in Hd. subst d. simpl. by rewrite H20.
    + assert (Hlt : (length l < 20)%nat) by lia.
      destruct (canSendMessage_below_limit rl u l lw now Htr Hin Hlt)
        as (rl1 & Hd & Htr1).
      cbv zeta in Hd, Htr1. simpl. rewrite Hd.
      set (warn := (16 <=? Z.of_nat (length l)) && (300000 <? now - lw)) in *.
      assert (Hexp : (if warn then AllowedWarning (Z.of_nat (length l)) 20 else Allowed)
                     = expected (length l)).
      { unfold expected, warn.
        destruct (Nat.ltb_spec (length l) 16) as [H16 | H16].
        - replace (16 <=? Z.of_nat (length l)) with false by (symmetry; lia). done.
        - replace (16 <=? Z.of_nat (length l)) with true by (symmetry; lia).
          destruct (Nat.eqb_spec (length l) 16) as [He | He].
          + rewrite He in Hlw |- *. simpl in Hlw. subst lw.
            replace (300000 <? now - 0) with true by (symmetry; lia). done.
          + replace (length l <=? 16)%nat with false in Hlw by (symmetry; apply Nat.leb_gt; lia).
            replace (300000 <? now - lw) with false by (symmetry; lia).
            replace (length l <? 20)%nat with true by (symmetry; apply Nat.ltb_lt; lia).
            done. }
      assert (Hallowed : allowed (if warn then AllowedWarning (Z.of_nat (length l)) 20
                                  else Allowed) = true) by (by destruct warn).
      rewrite Hallowed.
      pose proof (recordAction_tracks rl1 u l _ now Htr1) as Htr2.
      specialize (IH (recordAction rl1 u "message" "text" now) (l ++ [now])
                     (if warn then now else lw) Htr2).
      rewrite length_app in IH. simpl in IH.
      replace (length l + 1)%nat with (S (length l)) in IH by lia.
      destruct (checkThenRecord (recordAction rl1 u "message" "text" now) u rest)
        as [ds rl3].
      simpl in IH |- *. rewrite Hexp. f_equal. apply IH.
      * apply Forall_app. split; [exact Hl | by constructor].
      * exact Hrest.
      * lia.
      * unfold warn.
        destruct (Nat.leb_spec (length l) 15) as [H15 | H15].
        -- replace (length l <=? 16)%nat with true in Hlw
             by (symmetry; apply Nat.leb_le; lia).
           replace (16 <=? Z.of_nat (length l)) with false by (symmetry; lia).
           exact Hlw.
        -- destruct (decide (length l = 16%nat)) as [He | He].
           ++ rewrite He in Hlw |- *. simpl in Hlw. subst lw.
              replace (300000 <? now - 0) with true by (symmetry; lia).
              simpl. lia.
           ++ replace (length l <=? 16)%nat with false in Hlw
                by (symmetry; apply Nat.leb_gt; lia).
              replace (300000 <? now - lw) with false by (symmetry; lia).
              rewrite andb_false_r. exact Hlw.
Qed.

(** C3, as the code has it.  A sender with no prior activity, warning or
    block makes 21 text attempts within one span of 60 seconds, each a
    check followed by a record: the checks 1 to 20 are allowed, the 17th
    (the first one that sees 16 recorded messages, 80% of the limit of 20)
    carries the warning, no other does, and the 21st is blocked with soft
    severity for five minutes. *)
Theorem burst_of_21 (rl : RateLimiter.t) (u : string) (times : list Z) (lo : Z) :
  userLimits rl !! userKey u "text" = None →
  blockedUsers rl !! u = None →
  limits rl = defaultLimits →
  length times = 21%nat →
  300000 < lo →
  Forall (λ time, lo ≤ time < lo + 60000) times →
  (checkThenRecord rl u times).1 =
    replicate 16 Allowed ++ [AllowedWarning 16 20] ++ replicate 3 Allowed
    ++ [BlockedViolation soft 300000
          [ {| v_type := PerMinute; v_count := 20; v_limit := 20 |} ]].
Proof.
  intros Hfresh Hb Hl Hlen Hlo Htimes.
  rewrite (checkThenRecord_in_minute u lo Hlo times rl [] 0).
  - rewrite Hlen. reflexivity.
  - unfold tracks. rewrite Hfresh. done.
  - constructor.
  - exact Htimes.
  - simpl. lia.
  - reflexivity.
Qed.

Lemma everySecond_in_span :
  Forall (λ time, 1700000001000 ≤ time < 1700000001000 + 60000) everySecond.
Proof. unfold everySecond. simpl. repeat constructor; lia. Qed.

Lemma burst_of_21_witness :
  (checkThenRecord RateLimiter.create "491700@s.whatsapp.net" everySecond).1 =
    replicate 16 Allowed ++ [AllowedWarning 16 20] ++ replicate 3 Allowed
    ++ [BlockedViolation soft 300000
          [ {| v_type := PerMinute; v_count := 20; v_limit := 20 |} ]].
Proof.
  apply (burst_of_21 RateLimiter.create "491700@s.whatsapp.net" everySecond
           1700000001000).
  - reflexivity.
  - reflexivity.
  - reflexivity.
  - reflexivity.
  - reflexivity.
  - exact everySecond_in_span.
Defined.

(** C3 as stated fails on the warning: with one attempt per second, the
    16th check is allowed without a warning; the 17th carries it. *)
Lemma sixteenth_check_has_no_warning :
  (checkThenRecord RateLimiter.create "491700@s.whatsapp.net" everySecond).1 !! 15%nat
    = Some Allowed ∧
  (checkThenRecord RateLimiter.create "491700@s.whatsapp.net" everySecond).1 !! 16%nat
    = Some (AllowedWarning 16 20).
Proof. split; vm_compute; reflexivity. Qed.

(** *** Commands *)

(** C4 fails on the code.  After ten commands recorded within ten seconds
    (the minute limit for commands is 10), the command window is at its
    limit, and the admission check still allows the sender, whether it is
    asked for a text message or with the message type ["command"]:
    [canSendMessage] reads the message and media logs only. *)
Theorem command_limit_not_enforced :
  (ud_commands <$> userLimits tenCommands !! "491700@s.whatsapp.net:text"%string)
    = Some ((λ k, 1700000000000 + 1000 * Z.of_nat k) <$> seq 1 10) ∧
  countSince ((λ k, 1700000000000 + 1000 * Z.of_nat k) <$> seq 1 10)
             (1700000011000 - 60 * 1000)
    = perMinute (lim_commands (limits tenCommands)) ∧
  (canSendMessage tenCommands "491700@s.whatsapp.net" "text" 1700000011000).1 = Allowed ∧
  (canSendMessage tenCommands "491700@s.whatsapp.net" "command" 1700000011000).1 = Allowed.
Proof. repeat split; vm_compute; reflexivity. Qed.

Lemma checkLimits_ext (ud ud' : UserData) (k : LimitKey) (lim : Limits) (now : Z) :
  actions ud k = actions ud' k →
  checkLimits ud k lim now = checkLimits ud' k lim now.
Proof. intros H. unfold checkLimits. by rewrite H. Qed.

Lemma shouldWarn_ext (ud ud' : UserData) (k : LimitKey) (lim : Limits) (now : Z) :
  actions ud k = actions ud' k → lastWarning ud = lastWarning ud' →
  (shouldWarn ud k lim now).1 = (shouldWarn ud' k lim now).1.
Proof. intros Ha Hw. unfold shouldWarn. rewrite Ha, Hw. by case_match. Qed.

Lemma cleanOldEntries_actions (ud : UserData) (k : LimitKey) (now : Z) :
  actions (cleanOldEntries ud k now) k
    = filter (λ time, now - 24 * 60 * 60 * 1000 < time) (actions ud k).
Proof. by destruct k. Qed.

Lemma cleanOldEntries_lastWarning (ud : UserData) (k : LimitKey) (now : Z) :
  lastWarning (cleanOldEntries ud k now) = lastWarning ud.
Proof. by destruct k. Qed.

(** What a decision is computed from: the sender's block record, the limit
    table, and the message or media log and last warning under the key. *)
Lemma canSendMessage_decision_ext (rl rl' : RateLimiter.t) (u mtype : string) (now : Z) :
  let k := if String.eqb mtype "media" then media else messages in
  let ud := default freshUserData (userLimits rl !! userKey u mtype) in
  let ud' := default freshUserData (userLimits rl' !! userKey u mtype) in
  blockedUsers rl !! u = blockedUsers rl' !! u →
  limits rl = limits rl' →
  actions ud k = actions ud' k →
  lastWarning ud = lastWarning ud' →
  (canSendMessage rl u mtype now).1 = (canSendMessage rl' u mtype now).1.
Proof.
  intros k ud ud' Hb Hl Ha Hw.
  assert (Hmain : ∀ r r' : RateLimiter.t,
    userLimits r = userLimits rl → userLimits r' = userLimits rl' →
    limits r = limits rl → limits r' = limits rl' →
    (match checkLimits (cleanOldEntries ud k now) k (limitsFor (limits r) k) now with
     | v0 :: vs => handleViolations (withUserData r (userKey u mtype)
                     (cleanOldEntries ud k now)) u v0 vs mtype now
     | [] => let '(w, ud2) := shouldWarn (cleanOldEntries ud k now) k
                                (limitsFor (limits r) k) now in
             match w with
             | Some (n, l) => (AllowedWarning n l, withUserData r (userKey u mtype) ud2)
             | None => (Allowed, withUserData r (userKey u mtype) ud2)
             end
     end).1 =
    (match checkLimits (cleanOldEntries ud' k now) k (limitsFor (limits r') k) now with
     | v0 :: vs => handleViolations (withUserData r' (userKey u mtype)
                     (cleanOldEntries ud' k now)) u v0 vs mtype now
     | [] => let '(w, ud2) := shouldWarn (cleanOldEntries ud' k now) k
                                (limitsFor (limits r') k) now in
             match w with
             | Some (n, l) => (AllowedWarning n l, withUserData r' (userKey u mtype) ud2)
             | None => (Allowed, withUserData r' (userKey u mtype) ud2)
             end
     end).1).
  { intros r r' _ _ Hr Hr'. rewrite Hr, Hr', <- Hl.
    assert (Hc : actions (cleanOldEntries ud k now) k
                 = actions (cleanOldEntries ud' k now) k)
      by (by rewrite !cleanOldEntries_actions, Ha).
    rewrite <- (checkLimits_ext _ _ k (limitsFor (limits rl) k) now Hc).
    destruct (checkLimits (cleanOldEntries ud k now) k (limitsFor (limits rl) k) now);
      [|done].
    pose proof (shouldWarn_ext _ _ k (limitsFor (limits rl) k) now Hc
                  (eq_trans (cleanOldEntries_lastWarning ud k now)
                     (eq_trans Hw (eq_sym (cleanOldEntries_lastWarning ud' k now))))) as Hs.
    destruct (shouldWarn (cleanOldEntries ud k now) k (limitsFor (limits rl) k) now)
      as [w ud2].
    destruct (shouldWarn (cleanOldEntries ud' k now) k (limitsFor (limits rl) k) now)
      as [w' ud2'].
    simpl in Hs. subst w'. by destruct w as [[n l]|]. }
  unfold canSendMessage, isBlocked, getBlockInfo. rewrite <- Hb.
  destruct (blockedUsers rl !! u) as [info|] eqn:Hlook.
  - destruct (blockedAt info + duration info <=? now).
    + apply Hmain; reflexivity.
    + cbv beta iota. simpl. by rewrite <- Hb, Hlook.
  - apply Hmain; reflexivity.
Qed.

(** No admission decision depends on a command log: replacing the commands
    recorded under any key leaves the decision of every check as it was. *)
Lemma canSendMessage_ignores_commands
    (rl : RateLimiter.t) (key : string) (cmds : list Z) (u mtype : string) (now : Z) :
  (canSendMessage (withCommands rl key cmds) u mtype now).1
    = (canSendMessage rl u mtype now).1.
Proof.
  apply canSendMessage_decision_ext; try reflexivity.
  - unfold withCommands; simpl. rewrite lookup_alter.
    destruct (decide (key = userKey u mtype)) as [-> | Hne]; [|done].
    destruct (userLimits rl !! userKey u mtype) as [ud|]; simpl; [|done].
    by destruct (String.eqb mtype "media").
  - unfold withCommands; simpl. rewrite lookup_alter.
    destruct (decide (key = userKey u mtype)) as [-> | Hne]; [|done].
    by destruct (userLimits rl !! userKey u mtype) as [ud|].
Qed.

End RateLimiterProps.

(** ** Properties of the message handler *)

Module MessageHandlerProps.

Import Store MessageHandler Spec Events.

Section Pipeline.

Variable regexTest : string → bool → string → option bool.
Variable sqlAfter : Z → Z → bool.

(** What the loop over the rules changes: the dispatched responses and the
    bot log. *)
Lemma respond_loop (md : MessageData) (raw : string) (rows : list TriggerRow) (h : MessageHandler.t) :
  let h' := fold_left (respond regexTest md raw) rows h in
  dispatched h' =
    dispatched h ++
    ((λ rule, {| to := jid md; body := response rule |})
       <$> List.filter (fires regexTest raw) rows) ∧
  triggers h' = triggers h ∧
  connected h' = connected h ∧
  spamThreshold h' = spamThreshold h ∧
  messagesTable (db h') = messagesTable (db h) ∧
  triggersTable (db h') = triggersTable (db h) ∧
  spamLogsTable (db h') = spamLogsTable (db h).
Proof.
  revert h. induction rows as [|rule rows IH]; intros h; simpl.
  - by rewrite app_nil_r.
  - destruct (IH (respond regexTest md raw h rule)) as (Hd & Ht & Hc & Hs & Hm & Htt & Hsl).
    rewrite Hd, Ht, Hc, Hs, Hm, Htt, Hsl. clear IH Hd Ht Hc Hs Hm Htt Hsl.
    unfold respond, fires.
    destruct (shouldRespond regexTest rule raw) as [[|]|]; simpl;
      rewrite ?app_nil_r; try done.
    destruct (connected h); simpl; by rewrite <- app_assoc.
Qed.

Lemma processTriggers_effect (h : MessageHandler.t) (md : MessageData) :
  let h' := processTriggers regexTest h md in
  dispatched h' = dispatched h ++ responses regexTest (triggers h) md ∧
  triggers h' = triggers h ∧
  connected h' = connected h ∧
  spamThreshold h' = spamThreshold h ∧
  messagesTable (db h') = messagesTable (db h) ∧
  triggersTable (db h') = triggersTable (db h) ∧
  spamLogsTable (db h') = spamLogsTable (db h).
Proof.
  unfold processTriggers, responses, Js.truthy.
  destruct (content md) as [| |raw]; simpl; rewrite ?app_nil_r; try done.
  destruct (String.eqb raw ""); simpl; rewrite ?app_nil_r; try done.
  apply respond_loop.
Qed.

Lemma checkSpam_effect (h : MessageHandler.t) (md : MessageData) (now : Z) :
  let flagged := spamThreshold h <? recentCount sqlAfter (db h) (sender_jid md) now in
  let h' := checkSpam sqlAfter h md now in
  spamLogsTable (db h') =
    spamLogsTable (db h) ++ (if flagged then [spamEntry md] else []) ∧
  dispatched h' =
    dispatched h ++ (if flagged && is_group md then [spamWarning md] else []) ∧
  messagesTable (db h') = messagesTable (db h) ∧
  triggers h' = triggers h.
Proof.
  unfold checkSpam.
  destruct (spamThreshold h <? recentCount sqlAfter (db h) (sender_jid md) now); simpl.
  - destruct (is_group md); simpl; rewrite ?app_nil_r; done.
  - by rewrite !app_nil_r.
Qed.

Lemma stored_stage (h : MessageHandler.t) (md : MessageData) (u : string) :
  let h2 := updateUserActivity (saveMessageToDatabase h md) u in
  dispatched h2 = dispatched h ∧
  triggers h2 = triggers h ∧
  spamThreshold h2 = spamThreshold h ∧
  messagesTable (db h2) = messagesTable (Store.saveMessage (db h) md) ∧
  spamLogsTable (db h2) = spamLogsTable (db h).
Proof.
  simpl. repeat split. unfold Store.saveMessage. by case_match.
Qed.

(** The stages of [processMessage] on an event that is not skipped and
    normalizes to [md]. *)
Lemma processMessage_stages (h : MessageHandler.t) (raw : RawMessage) (now : Z) (md : MessageData) :
  fromMe (key raw) = false →
  normalize raw = Ok md →
  let stored := Store.saveMessage (db h) md in
  let flagged := spamThreshold h <? recentCount sqlAfter stored (sender_jid md) now in
  ∃ h',
    processMessage regexTest sqlAfter h raw now = Ok h' ∧
    messagesTable (db h') = messagesTable stored ∧
    spamLogsTable (db h') =
      spamLogsTable (db h) ++ (if flagged then [spamEntry md] else []) ∧
    dispatched h' =
      dispatched h ++ responses regexTest (triggers h) md
      ++ (if flagged && is_group md then [spamWarning md] else []) ∧
    triggers h' = triggers h.
Proof.
  intros Hme Hnorm stored flagged. unfold processMessage. rewrite Hme.
  unfold normalize in Hnorm. rewrite Hnorm. eexists. split; [reflexivity|].
  cbv zeta.
  destruct (stored_stage h md (Js.or_else (participant (key raw)) (remoteJid (key raw))))
    as (Hd2 & Ht2 & Hs2 & Hm2 & Hsl2).
  cbv zeta in Hd2, Ht2, Hs2, Hm2, Hsl2.
  set (h2 := updateUserActivity (saveMessageToDatabase h md) _) in *.
  destruct (processTriggers_effect h2 md) as (Hd & Ht & _ & Hs & Hm & _ & Hsl).
  cbv zeta in Hd, Ht, Hs, Hm, Hsl.
  unfold collectData.
  set (h3 := processTriggers regexTest h2 md) in *.
  destruct (checkSpam_effect h3 md now) as (Hsl' & Hd' & Hm' & Ht').
  cbv zeta in Hsl', Hd', Hm', Ht'.
  assert (Hcount : recentCount sqlAfter (db h3) (sender_jid md) now
                   = recentCount sqlAfter stored (sender_jid md) now).
  { unfold recentCount. by rewrite Hm, Hm2. }
  rewrite Hcount, Hs, Hs2 in Hsl', Hd'. fold flagged in Hsl', Hd'.
  simpl. rewrite Hm', Hm, Hm2, Hsl', Hsl, Hsl2, Hd', Hd, Hd2, Ht', Ht, Ht2.
  repeat split; try done. by rewrite <- app_assoc.
Qed.

Lemma hasMessage_saveMessage (store : Store.t) (md : MessageData) :
  Store.hasMessage (Store.saveMessage store md) (message_id md) = true.
Proof.
  unfold Store.saveMessage.
  destruct (Store.hasMessage store (message_id md)) eqn:Hhas; [done|].
  unfold Store.hasMessage; simpl. rewrite existsb_app; simpl.
  by rewrite String.eqb_refl, orb_true_r.
Qed.

Lemma filter_length_le {A : Type} (p q : A → bool) (l : list A) :
  (∀ x, p x = true → q x = true) →
  (length (List.filter p l) ≤ length (List.filter q l))%nat.
Proof.
  intros Hpq. induction l as [|x l IH]; simpl; [done|].
  destruct (p x) eqn:Hp.
  - rewrite (Hpq x Hp). simpl. lia.
  - destruct (q x); simpl; lia.
Qed.

(** The query of [checkSpam] counts at least the messages of the last five
    minutes. *)
Lemma windowCount_le_recentCount (store : Store.t) (sender : string) (now : Z) :
  (∀ ts, now - 5 * 60 * 1000 < ts → sqlAfter now ts = true) →
  windowCount (messagesTable store) sender now ≤ recentCount sqlAfter store sender now.
Proof.
  intros Hsql. unfold windowCount, recentCount.
  apply inj_le, filter_length_le. intros r Hr.
  apply andb_prop in Hr as [Hr _]. apply andb_prop in Hr as [Hs Ht].
  rewrite Hs. simpl. apply Hsql. lia.
Qed.


Lemma beforeAt_mentioned (u : string) :
  substring_of ("@" ++ Js.beforeAt u) (spamWarningText u).
Proof.
  unfold spamWarningText.
  exists "⚠️ "%string,
         ", please slow down your messages to avoid being flagged as spam."%string.
  reflexivity.
Qed.

(** C8.  When the messages a sender has stored within the last five
    minutes, the one being processed included, outnumber [spamThreshold],
    the pipeline logs one spam event with severity medium and action
    flagged, and it dispatches one warning reply, which names the sender,
    into the conversation exactly when the conversation is a group. *)
Theorem spam_escalation
    (h : MessageHandler.t) (raw : RawMessage) (now : Z) (md : MessageData) :
  (∀ ts, now - 5 * 60 * 1000 < ts → sqlAfter now ts = true) →
  fromMe (key raw) = false →
  normalize raw = Ok md →
  spamThreshold h
    < windowCount (messagesTable (Store.saveMessage (db h) md)) (sender_jid md) now →
  ∃ h',
    processMessage regexTest sqlAfter h raw now = Ok h' ∧
    spamLogsTable (db h') =
      spamLogsTable (db h) ++
      [ {| sl_user_jid := sender_jid md; sl_message_id := message_id md;
           sl_reason := "High message frequency"; sl_severity := "medium";
           sl_action_taken := "flagged" |} ] ∧
    dispatched h' =
      dispatched h ++ responses regexTest (triggers h) md
      ++ (if is_group md
          then [ {| to := jid md; body := spamWarningText (sender_jid md) |} ]
          else []) ∧
    substring_of ("@" ++ Js.beforeAt (sender_jid md)) (spamWarningText (sender_jid md)).
Proof.
  intros Hsql Hme Hnorm Hcount.
  destruct (processMessage_stages h raw now md Hme Hnorm)
    as (h' & Hrun & _ & Hsl & Hd & _).
  pose proof (windowCount_le_recentCount (Store.saveMessage (db h) md)
                (sender_jid md) now Hsql) as Hle.
  assert (Hflag : (spamThreshold h
                     <? recentCount sqlAfter (Store.saveMessage (db h) md)
                          (sender_jid md) now) = true)
    by (apply Z.ltb_lt; lia).
  rewrite Hflag in Hsl, Hd. simpl in Hd.
  exists h'. split; [exact Hrun|]. split; [exact Hsl|]. split; [exact Hd|].
  apply beforeAt_mentioned.
Qed.

End Pipeline.

(** On the stored texts SQLite compares, every instant of the last five
    minutes is after the bound. *)
Lemma sqliteAfter_window (now ts : Z) :
  now - 5 * 60 * 1000 < ts → sqliteAfter now ts = true.
Proof.
  intros H. unfold sqliteAfter. apply Z.leb_le.
  apply Z.div_le_mono; lia.
Qed.



Lemma spam_escalation_witness :
  ∃ h',
    processMessage noRegex sqliteAfter afterFive (groupEvent 6) 1700000060000 = Ok h' ∧
    spamLogsTable (db h') =
      [ {| sl_user_jid := "491700@s.whatsapp.net"; sl_message_id := "G-6";
           sl_reason := "High message frequency"; sl_severity := "medium";
           sl_action_taken := "flagged" |} ] ∧
    dispatched h' =
      [ {| to := "120363@g.us";
           body := spamWarningText "491700@s.whatsapp.net" |} ] ∧
    substring_of "@491700" (spamWarningText "491700@s.whatsapp.net").
Proof.
  destruct (spam_escalation noRegex sqliteAfter afterFive (groupEvent 6)
              1700000060000 sixthMessage
              (sqliteAfter_window 1700000060000) eq_refl eq_refl eq_refl)
    as (h' & H1 & H2 & H3 & H4).
  exists h'. split; [exact H1|]. split; [exact H2|]. split; [exact H3 | exact H4].
Defined.

(** The six messages on the code: the first five raise nothing, the sixth
    is flagged once and answered once. *)
Lemma sixth_message_flagged :
  spamLogsTable (db afterFive) = [] ∧
  dispatched afterFive = [] ∧
  windowCount (messagesTable (db afterFive)) "491700@s.whatsapp.net" 1700000060000 = 5 ∧
  spamLogsTable
    (db (onMessage noRegex sqliteAfter afterFive (groupEvent 6) 1700000060000))
    = [ spamEntry sixthMessage ] ∧
  dispatched (onMessage noRegex sqliteAfter afterFive (groupEvent 6) 1700000060000)
    = [ spamWarning sixthMessage ].
Proof. repeat split; vm_compute; reflexivity. Qed.


(** *** The rule store and the matching of rules *)

Lemma filter_rejecting_none {A : Type} (p : A → bool) (l : list A) :
  existsb p l = false → List.filter (λ x, negb (p x)) l = l.
Proof.
  induction l as [|x l IH]; simpl; [done|].
  intros H. apply orb_false_elim in H as [Hx Hl].
  rewrite Hx. simpl. by rewrite IH.
Qed.

Lemma removeTrigger_absent (store : Store.t) (kw : string) :
  Store.hasKeyword store kw = false →
  triggersTable (Store.removeTrigger store kw) = triggersTable store.
Proof.
  intros H. unfold Store.removeTrigger; simpl.
  by apply (filter_rejecting_none (λ r, String.eqb (keyword r) kw)).
Qed.

Lemma removeTrigger_gone (store : Store.t) (kw : string) (r : TriggerRow) :
  r ∈ Store.getActiveTriggers (Store.removeTrigger store kw) → keyword r ≠ kw.
Proof.
  unfold Store.getActiveTriggers, Store.removeTrigger; simpl.
  rewrite list_elem_of_In, !filter_In. intros [[_ Hr] _] Heq.
  apply negb_true_iff in Hr. by apply String.eqb_neq in Hr.
Qed.

(** C6, as the code has it.  [addTrigger] fails (it returns [false] and
    changes nothing) when a rule with the keyword exists, and otherwise
    appends the rule; [removeTrigger] succeeds whether or not a rule with
    the keyword exists, and leaves the rules as they were when there is
    none; after a successful mutation the snapshot is the active rules of
    the store, so the next matching evaluates the rules as mutated. *)
Theorem trigger_mutations (regexTest : string → bool → string → option bool)
    (h : MessageHandler.t) (kw resp mtype : string) (cs : bool) :
  (Store.hasKeyword (db h) kw = true → addTrigger h kw resp mtype cs = (false, h)) ∧
  (Store.hasKeyword (db h) kw = false →
   ∃ h', addTrigger h kw resp mtype cs = (true, h') ∧
         triggers h' =
           Store.getActiveTriggers (db h) ++
           [ {| keyword := kw; response := resp; is_active := true;
                match_type := mtype; case_sensitive := cs |} ] ∧
         ∀ md, dispatched (processTriggers regexTest h' md) =
               dispatched h' ++ responses regexTest (Store.getActiveTriggers (db h')) md) ∧
  (∃ h', removeTrigger h kw = (true, h') ∧
         (∀ r, r ∈ triggers h' → keyword r ≠ kw) ∧
         (Store.hasKeyword (db h) kw = false →
            triggersTable (db h') = triggersTable (db h)) ∧
         ∀ md, dispatched (processTriggers regexTest h' md) =
               dispatched h' ++ responses regexTest (Store.getActiveTriggers (db h')) md).
Proof.
  split; [|split].
  - intros Hdup. unfold addTrigger, Store.addTrigger. by rewrite Hdup.
  - intros Hnew. unfold addTrigger, Store.addTrigger. rewrite Hnew.
    eexists. split; [reflexivity|]. split.
    + unfold loadTriggers, Store.getActiveTriggers; simpl.
      by rewrite List.filter_app.
    + intros md. apply (processTriggers_effect regexTest).
  - eexists. split; [reflexivity|]. split; [|split].
    + intros r Hr. by apply removeTrigger_gone in Hr.
    + intros Hnone. by apply removeTrigger_absent.
    + intros md. apply (processTriggers_effect regexTest).
Qed.

Lemma trigger_mutations_witness :
  addTrigger helpHandler "help" "Hello" "exact" false = (false, helpHandler) ∧
  (∃ h', addTrigger helpHandler "bye" "See you" "exact" false = (true, h') ∧
         triggers h' =
           [ helpRule;
             {| keyword := "bye"; response := "See you"; is_active := true;
                match_type := "exact"; case_sensitive := false |} ]) ∧
  (∃ h', removeTrigger helpHandler "bye" = (true, h') ∧
         triggersTable (db h') = triggersTable (db helpHandler)).
Proof.
  destruct (trigger_mutations noRegex helpHandler "help" "Hello" "exact" false)
    as (Hdup & _ & _).
  destruct (trigger_mutations noRegex helpHandler "bye" "See you" "exact" false)
    as (_ & Hadd & h2 & Hrm & _ & Hsame & _).
  split; [exact (Hdup eq_refl)|]. split.
  - destruct (Hadd eq_refl) as (h1 & H1 & H2 & _). exists h1. split; [exact H1 | exact H2].
  - exists h2. split; [exact Hrm | exact (Hsame eq_refl)].
Defined.

(** C6 as stated fails on removal: no rule has the keyword "bye", and
    [removeTrigger] reports success. *)
Lemma remove_of_unknown_keyword_succeeds :
  Store.hasKeyword (db helpHandler) "bye" = false ∧
  (removeTrigger helpHandler "bye").1 = true ∧
  triggers (removeTrigger helpHandler "bye").2 = [helpRule].
Proof. repeat split. Qed.

(** Adding a rule and sending its keyword: the response is dispatched. *)
Lemma added_rule_fires :
  dispatched
    (onMessage noRegex sqliteAfter
       (addTrigger helpHandler "bye" "See you" "exact" false).2
       (textEvent "MSG-4" "491700@s.whatsapp.net" None "Bye" (Some 1700000060))
       1700000060000)
    = [ {| to := "491700@s.whatsapp.net"; body := "See you" |} ].
Proof. vm_compute. reflexivity. Qed.

Lemma append_cons (c : ascii) (s1 s2 : string) :
  (String c s1 ++ s2)%string = String c (s1 ++ s2)%string.
Proof. reflexivity. Qed.

Lemma prefix_iff (k s : string) :
  String.prefix k s = true ↔ ∃ post : string, s = (k ++ post)%string.
Proof.
  revert s. induction k as [|c k IH]; intros s.
  - split; [intros _; by exists s | intros _; by destruct s].
  - destruct s as [|d s]; simpl.
    + split; [done | intros [post Hpost]; by rewrite append_cons in Hpost].
    + destruct (Ascii.ascii_dec c d) as [-> | Hne].
      * rewrite IH. split; intros [post Hpost]; exists post;
          rewrite append_cons in *; congruence.
      * split; [done | intros [post Hpost]; rewrite append_cons in Hpost; congruence].
Qed.

Lemma append_nil_l (s : string) : ("" ++ s)%string = s.
Proof. reflexivity. Qed.

(** [includes] is the substring test. *)
Lemma includes_iff (s k : string) :
  Js.includes s k = true ↔ substring_of k s.
Proof.
  induction s as [|c s IH].
  - change (Js.includes "" k) with (if String.prefix k "" then true else false).
    destruct (String.prefix k "") eqn:Hp.
    + split; [intros _ | done]. apply prefix_iff in Hp as [post Hpost].
      exists ""%string, post. by rewrite append_nil_l.
    + split; [done|]. intros (pre & post & Heq).
      destruct pre as [|d pre]; [|by rewrite append_cons in Heq].
      rewrite append_nil_l in Heq.
      assert (String.prefix k "" = true) by (apply prefix_iff; eauto). congruence.
  - change (Js.includes (String c s) k)
      with (if String.prefix k (String c s) then true else Js.includes s k).
    destruct (String.prefix k (String c s)) eqn:Hp.
    + split; [intros _ | done]. apply prefix_iff in Hp as [post Hpost].
      exists ""%string, post. by rewrite append_nil_l.
    + rewrite IH. split.
      * intros (pre & post & ->). exists (String c pre), post.
        by rewrite append_cons.
      * intros (pre & post & Heq). destruct pre as [|d pre].
        -- rewrite append_nil_l in Heq.
           assert (String.prefix k (String c s) = true) by (apply prefix_iff; eauto).
           congruence.
        -- rewrite append_cons in Heq. injection Heq as _ ->. by exists pre, post.
Qed.

(** What a [contains] rule tests: the keyword, folded unless the rule is
    case sensitive, against the folded text in both cases. *)
Lemma contains_rule (regexTest : string → bool → string → option bool)
    (rule : TriggerRow) (raw : string) :
  match_type rule = "contains"%string →
  (fires regexTest raw rule = true ↔
   substring_of (if case_sensitive rule then keyword rule
                 else Js.toLowerCase (keyword rule))
                (Js.toLowerCase raw)).
Proof.
  intros Hkind. unfold fires, shouldRespond. rewrite Hkind. simpl.
  rewrite <- includes_iff. by destruct (Js.includes _ _).
Qed.

(** C7 fails on the code for case-sensitive rules.  The rule [helloRule]
    (contains, case sensitive) has the keyword "Hello", which occurs
    unmodified in the unmodified text "Hello world"; the rule does not
    fire, and nothing is dispatched: the keyword is searched in the
    lower-cased text. *)
Theorem contains_case_sensitive_misses :
  match_type helloRule = "contains"%string ∧
  case_sensitive helloRule = true ∧
  substring_of (keyword helloRule) "Hello world" ∧
  shouldRespond noRegex helloRule "Hello world" = Some false ∧
  normalize helloWorld
    = Ok {| message_id := "MSG-2"; jid := "491700@s.whatsapp.net";
            sender_jid := "491700@s.whatsapp.net"; message_type := "text";
            content := Js.Val "Hello world"%string;
            media_url := Js.Null; media_type := Js.Null;
            timestamp := 1700000060000; is_group := false;
            group_jid := Js.Null; reply_to := Js.Null; is_forwarded := false |} ∧
  dispatched (onMessage noRegex sqliteAfter helloHandler helloWorld 1700000060000) = [].
Proof.
  split; [reflexivity|]. split; [reflexivity|]. split.
  - by exists ""%string, " world"%string.
  - repeat split; vm_compute; reflexivity.
Qed.

(** *** Normalization *)

(** With a timestamp that is a valid date, normalization returns a record
    whatever else is absent. *)
Lemma normalize_with_timestamp (raw : RawMessage) (seconds : Z) :
  messageTimestamp raw = Some seconds →
  validDate (seconds * 1000) = true →
  ∃ md, normalize raw = Ok md ∧ timestamp md = seconds * 1000.
Proof.
  intros Hts Hvalid. unfold normalize, extractMessageData, isoTimestamp.
  rewrite Hts, Hvalid. destruct (payload (message raw)) as [[[c mu] mt] kind].
  eexists. split; reflexivity.
Qed.

(** Without a message body, the content is the empty string and the media
    fields are null. *)
Lemma normalize_without_body (raw : RawMessage) (md : MessageData) :
  message raw = None →
  normalize raw = Ok md →
  content md = Js.Val ""%string ∧ media_url md = Js.Null ∧ media_type md = Js.Null ∧
  message_type md = "text"%string ∧ reply_to md = Js.Null ∧ is_forwarded md = false.
Proof.
  intros Hbody. unfold normalize, extractMessageData. rewrite Hbody. simpl.
  destruct (isoTimestamp (messageTimestamp raw)); [|discriminate].
  intros [= <-]. done.
Qed.

(** C9 fails on the code.  The event [noTimestamp] is a text message that
    lacks its timestamp: normalization throws a [RangeError] instead of
    returning a record, [processMessage] throws with it, and the message
    is neither stored nor answered. *)
Theorem missing_timestamp_throws :
  messageTimestamp noTimestamp = None ∧
  normalize noTimestamp = Throw "RangeError: Invalid time value" ∧
  processMessage noRegex sqliteAfter helloHandler noTimestamp 1700000060000
    = Throw "RangeError: Invalid time value" ∧
  messagesTable (db (onMessage noRegex sqliteAfter helloHandler noTimestamp 1700000060000))
    = [].
Proof. repeat split. Qed.

End MessageHandlerProps.

(** ** Further properties of the rate limiter *)

Module RateLimiterMore.

Import RateLimiter RateLimiterAdmin Spec.

(** *** The shape of an admission check *)

Lemma isBlocked_keeps (rl : RateLimiter.t) (u : string) (now : Z) :
  userLimits (isBlocked rl u now).2 = userLimits rl ∧
  limits (isBlocked rl u now).2 = limits rl ∧
  (∀ u', u' ≠ u → blockedUsers (isBlocked rl u now).2 !! u' = blockedUsers rl !! u').
Proof.
  unfold isBlocked. destruct (blockedUsers rl !! u) as [info|]; [|done].
  destruct (blockedAt info + duration info <=? now); simpl; [|done].
  repeat split. intros u' Hne. by rewrite lookup_delete_ne.
Qed.

Lemma isBlocked_true (rl : RateLimiter.t) (u : string) (now : Z) :
  (isBlocked rl u now).1 = true →
  (isBlocked rl u now).2 = rl ∧
  ∃ info, blockedUsers rl !! u = Some info ∧ now < blockedAt info + duration info.
Proof.
  unfold isBlocked. destruct (blockedUsers rl !! u) as [info|]; [|done].
  destruct (Z.leb_spec (blockedAt info + duration info) now); simpl; [done|].
  intros _. split; [done|]. by exists info.
Qed.

Lemma isBlocked_false (rl : RateLimiter.t) (u : string) (now : Z) :
  (isBlocked rl u now).1 = false →
  blockedUsers (isBlocked rl u now).2 !! u = None.
Proof.
  unfold isBlocked. destruct (blockedUsers rl !! u) as [info|] eqn:Hl; [|done].
  destruct (blockedAt info + duration info <=? now); simpl; [|done].
  intros _. apply lookup_delete_eq.
Qed.

Lemma canSendMessage_blocked (rl : RateLimiter.t) (u mt : string) (now : Z) :
  (isBlocked rl u now).1 = true →
  canSendMessage rl u mt now = (BlockedExisting (blockedUsers rl !! u), rl).
Proof.
  intros Hb. destruct (isBlocked_true rl u now Hb) as [Hrl _].
  unfold canSendMessage. destruct (isBlocked rl u now) as [b rl0].
  simpl in Hb, Hrl. subst. reflexivity.
Qed.

Lemma canSendMessage_unblocked (rl : RateLimiter.t) (u mt : string) (now : Z) :
  (isBlocked rl u now).1 = false →
  let rl0 := (isBlocked rl u now).2 in
  let key := userKey u mt in
  let k := if String.eqb mt "media" then media else messages in
  let lim := limitsFor (limits rl) k in
  let ud1 := cleanOldEntries (default freshUserData (userLimits rl !! key)) k now in
  canSendMessage rl u mt now =
    match checkLimits ud1 k lim now with
    | v0 :: vs => handleViolations (withUserData rl0 key ud1) u v0 vs mt now
    | [] =>
        (match (shouldWarn ud1 k lim now).1 with
         | Some (n, l) => AllowedWarning n l
         | None => Allowed
         end,
         withUserData rl0 key (shouldWarn ud1 k lim now).2)
    end.
Proof.
  intros Hb rl0 key k lim ud1.
  destruct (isBlocked_keeps rl u now) as (Hul & Hlim & _).
  unfold canSendMessage. subst rl0 ud1 lim.
  destruct (isBlocked rl u now) as [b r]. simpl in Hb, Hul, Hlim |- *. subst b.
  rewrite Hul, Hlim. fold key k.
  destruct (checkLimits _ k (limitsFor (limits rl) k) now); [|done].
  destruct (shouldWarn _ k (limitsFor (limits rl) k) now) as [[[n l]|] ud2]; done.
Qed.

Lemma limitKey_not_commands (mt : string) :
  (if String.eqb mt "media" then media else messages) ≠ commands.
Proof. by destruct (String.eqb mt "media"). Qed.

Lemma shouldWarn_keeps (ud : UserData) (k : LimitKey) (lim : Limits) (now : Z) (k' : LimitKey) :
  actions (shouldWarn ud k lim now).2 k' = actions ud k'.
Proof. unfold shouldWarn. case_match; by destruct k'. Qed.

Lemma cleanOldEntries_other (ud : UserData) (k k' : LimitKey) (now : Z) :
  k' ≠ k → actions (cleanOldEntries ud k now) k' = actions ud k'.
Proof. by destruct k, k'. Qed.

(** X6.  An admission check purges the log it reads and never records.
    When the sender is blocked the logs are left alone; otherwise the log
    the check reads keeps exactly its entries of the last 24 hours, and
    every other log of every key is as before. *)
Theorem check_purges_only (rl : RateLimiter.t) (u mt : string) (now : Z) :
  let rl' := (canSendMessage rl u mt now).2 in
  let k := if String.eqb mt "media" then media else messages in
  let log (r : RateLimiter.t) (key : string) (k' : LimitKey) :=
    actions (default freshUserData (userLimits r !! key)) k' in
  ((isBlocked rl u now).1 = true → userLimits rl' = userLimits rl) ∧
  ((isBlocked rl u now).1 = false →
     log rl' (userKey u mt) k =
       filter (λ time, now - 24 * 60 * 60 * 1000 < time) (log rl (userKey u mt) k) ∧
     ∀ key k', key ≠ userKey u mt ∨ k' ≠ k → log rl' key k' = log rl key k').
Proof.
  intros rl' k log. split.
  - intros Hb. subst rl'. by rewrite (canSendMessage_blocked _ _ _ _ Hb).
  - intros Hb. subst rl' log. rewrite (canSendMessage_unblocked _ _ _ _ Hb).
    cbv zeta. fold k.
    destruct (isBlocked_keeps rl u now) as (Hul & _ & _).
    set (ud0 := default freshUserData (userLimits rl !! userKey u mt)).
    assert (Hstate : ∀ ud2 key,
      default freshUserData
        (<[userKey u mt := ud2]> (userLimits (isBlocked rl u now).2) !! key)
      = if decide (userKey u mt = key) then ud2
        else default freshUserData (userLimits rl !! key)).
    { intros ud2 key. rewrite Hul, lookup_insert.
      by case_decide. }
    destruct (checkLimits (cleanOldEntries ud0 k now) k (limitsFor (limits rl) k) now)
      as [|v0 vs]; simpl.
    + split.
      * rewrite Hstate, decide_True by done.
        rewrite shouldWarn_keeps. apply RateLimiterProps.cleanOldEntries_actions.
      * intros key k' Hne. rewrite Hstate. case_decide as Hkey; [|done]. subst key.
        rewrite shouldWarn_keeps. destruct Hne as [Hne | Hne]; [done|].
        by apply cleanOldEntries_other.
    + split.
      * rewrite Hstate, decide_True by done.
        apply RateLimiterProps.cleanOldEntries_actions.
      * intros key k' Hne. rewrite Hstate. case_decide as Hkey; [|done]. subst key.
        destruct Hne as [Hne | Hne]; [done|]. by apply cleanOldEntries_other.
Qed.

(** X7.  An admission check for one sender touches no other sender: the
    block records of the others, the records under every other key and the
    limit table are unchanged. *)
Theorem check_frame (rl : RateLimiter.t) (u mt : string) (now : Z) :
  let rl' := (canSendMessage rl u mt now).2 in
  limits rl' = limits rl ∧
  (∀ u', u' ≠ u → blockedUsers rl' !! u' = blockedUsers rl !! u') ∧
  (∀ key, key ≠ userKey u mt → userLimits rl' !! key = userLimits rl !! key).
Proof.
  intros rl'. subst rl'.
  destruct (isBlocked_keeps rl u now) as (Hul & Hlim & Hbl).
  destruct ((isBlocked rl u now).1) eqn:Hb.
  - by rewrite (canSendMessage_blocked _ _ _ _ Hb).
  - rewrite (canSendMessage_unblocked _ _ _ _ Hb). cbv zeta.
    destruct (checkLimits _ _ _ now) as [|v0 vs]; simpl.
    + split; [done|]. split; [done|]. intros key Hne.
      by rewrite lookup_insert_ne, Hul.
    + split; [done|]. split.
      * intros u' Hne. by rewrite lookup_insert_ne, Hbl.
      * intros key Hne. by rewrite lookup_insert_ne, Hul.
Qed.

(** *** Blocks and warnings over time *)

Lemma handleViolations_fst (rl : RateLimiter.t) (u mt : string) (v0 : Violation)
    (vs : list Violation) (now : Z) :
  (handleViolations rl u v0 vs mt now).1 =
    BlockedViolation (getViolationSeverity (maxViolation v0 vs))
      (blockDurations (getViolationSeverity (maxViolation v0 vs))) (v0 :: vs).
Proof. reflexivity. Qed.

(** What a fresh block decision tells about the check that made it. *)
Lemma canSendMessage_violation_inv (rl : RateLimiter.t) (u mt : string) (now : Z)
    (s : Severity) (d : Z) (vs : list Violation) :
  (canSendMessage rl u mt now).1 = BlockedViolation s d vs →
  let k := if String.eqb mt "media" then media else messages in
  let ud1 := cleanOldEntries (default freshUserData (userLimits rl !! userKey u mt)) k now in
  (isBlocked rl u now).1 = false ∧
  checkLimits ud1 k (limitsFor (limits rl) k) now = vs ∧
  d = blockDurations s ∧
  ∃ v0 vs', vs = v0 :: vs' ∧ s = getViolationSeverity (maxViolation v0 vs') ∧
    blockedUsers (canSendMessage rl u mt now).2 !! u =
      Some {| blockedAt := now; duration := d; reason := maxViolation v0 vs';
              violations := vs; messageType := mt |}.
Proof.
  intros Hd k ud1.
  destruct ((isBlocked rl u now).1) eqn:Hb.
  { rewrite (canSendMessage_blocked _ _ _ _ Hb) in Hd. discriminate. }
  split; [done|]. revert Hd. rewrite (canSendMessage_unblocked _ _ _ _ Hb).
  cbv zeta. fold k ud1.
  destruct (checkLimits ud1 k (limitsFor (limits rl) k) now) as [|v0 vs'].
  { simpl. by destruct (shouldWarn ud1 k (limitsFor (limits rl) k) now).1 as [[n l]|]. }
  rewrite handleViolations_fst. intros [= <- <- <-].
  split; [done|]. split; [done|]. exists v0, vs'. split; [done|]. split; [done|].
  unfold handleViolations; simpl. apply lookup_insert_eq.
Qed.

(** X1.  A block holds for every message type until its duration is over.
    After a check has blocked a sender at [now] for the duration [d], every
    check of that sender before [now + d], for whatever message type, is
    answered with the block record and changes nothing; from [now + d] on
    the lookup finds the sender unblocked and removes the record. *)
Theorem block_persists (rl : RateLimiter.t) (u mt : string) (now : Z)
    (s : Severity) (d : Z) (vs : list Violation) :
  (canSendMessage rl u mt now).1 = BlockedViolation s d vs →
  let rl1 := (canSendMessage rl u mt now).2 in
  ∃ info,
    blockedAt info = now ∧ duration info = d ∧ violations info = vs ∧
    (∀ mt' now', now' < now + d →
       canSendMessage rl1 u mt' now' = (BlockedExisting (Some info), rl1)) ∧
    (∀ now', now + d ≤ now' →
       (isBlocked rl1 u now').1 = false ∧
       blockedUsers (isBlocked rl1 u now').2 !! u = None).
Proof.
  intros Hd rl1.
  destruct (canSendMessage_violation_inv rl u mt now s d vs Hd)
    as (_ & _ & _ & v0 & vs' & _ & _ & Hrec).
  fold rl1 in Hrec.
  exists {| blockedAt := now; duration := d; reason := maxViolation v0 vs';
            violations := vs; messageType := mt |}.
  split; [done|]. split; [done|]. split; [done|]. split.
  - intros mt' now' Hlt.
    assert (Hb : (isBlocked rl1 u now').1 = true).
    { rewrite (RateLimiterProps.isBlocked_registered _ _ _ _ Hrec). simpl.
      destruct (Z.leb_spec (now + d) now'); [lia | done]. }
    rewrite (canSendMessage_blocked _ _ _ _ Hb). by rewrite Hrec.
  - intros now' Hge.
    rewrite (RateLimiterProps.isBlocked_registered _ _ _ _ Hrec). simpl.
    destruct (Z.leb_spec (now + d) now'); [|lia]. simpl.
    split; [done|]. apply lookup_delete_eq.
Qed.

Lemma shouldWarn_some (ud : UserData) (k : LimitKey) (lim : Limits) (now : Z) :
  is_Some (shouldWarn ud k lim now).1 →
  lastWarning (shouldWarn ud k lim now).2 = now ∧
  warningCount (shouldWarn ud k lim now).2 = warningCount ud + 1.
Proof. unfold shouldWarn. case_match; simpl; [done|]. by intros [? ?]. Qed.

Lemma shouldWarn_cooldown (ud : UserData) (k : LimitKey) (lim : Limits) (now : Z) :
  now - lastWarning ud ≤ 5 * 60 * 1000 → shouldWarn ud k lim now = (None, ud).
Proof.
  intros H. unfold shouldWarn.
  replace (5 * 60 * 1000 <? now - lastWarning ud) with false by (symmetry; lia).
  by rewrite andb_false_r.
Qed.

(** What a warning tells about the check that gave it. *)
Lemma canSendMessage_warning_inv (rl : RateLimiter.t) (u mt : string) (now : Z) (n l : Z) :
  (canSendMessage rl u mt now).1 = AllowedWarning n l →
  let rl1 := (canSendMessage rl u mt now).2 in
  blockedUsers rl1 !! u = None ∧
  lastWarning (default freshUserData (userLimits rl1 !! userKey u mt)) = now.
Proof.
  intros Hd rl1. subst rl1.
  destruct ((isBlocked rl u now).1) eqn:Hb.
  { rewrite (canSendMessage_blocked _ _ _ _ Hb) in Hd. discriminate. }
  revert Hd. rewrite (canSendMessage_unblocked _ _ _ _ Hb). cbv zeta.
  destruct (checkLimits _ _ _ now) as [|v0 vs']; [|by rewrite handleViolations_fst].
  simpl. intros Hd. split; [by apply isBlocked_false|].
  rewrite lookup_insert_eq. simpl. apply shouldWarn_some.
  by destruct (shouldWarn _ _ _ now).1 as [[? ?]|].
Qed.

Lemma recordAction_keeps (rl : RateLimiter.t) (u actionType mt : string) (now : Z) :
  blockedUsers (recordAction rl u actionType mt now) = blockedUsers rl ∧
  limits (recordAction rl u actionType mt now) = limits rl ∧
  lastWarning (default freshUserData
                 (userLimits (recordAction rl u actionType mt now) !! userKey u mt))
    = lastWarning (default freshUserData (userLimits rl !! userKey u mt)).
Proof.
  unfold recordAction, withUserData; simpl. rewrite lookup_insert_eq. simpl.
  repeat split. by repeat case_match.
Qed.

(** X2.  Warnings keep a cooldown of five minutes.  After a check has warned
    a sender at [now1], no check of that sender for the same message type
    up to five minutes later warns again, whatever actions were recorded
    for it in between. *)
Theorem warning_cooldown (rl : RateLimiter.t) (u mt : string) (now1 : Z) (n l : Z)
    (recorded : list (string * Z)) (now2 : Z) :
  (canSendMessage rl u mt now1).1 = AllowedWarning n l →
  now2 - now1 ≤ 5 * 60 * 1000 →
  let rl2 := fold_left (λ r (a : string * Z), recordAction r u a.1 mt a.2) recorded
               (canSendMessage rl u mt now1).2 in
  ∀ n' l', (canSendMessage rl2 u mt now2).1 ≠ AllowedWarning n' l'.
Proof.
  intros Hd Hclose rl2 n' l'.
  destruct (canSendMessage_warning_inv rl u mt now1 n l Hd) as [Hnone Hlw].
  cbv zeta in Hnone, Hlw.
  assert (Hinv : blockedUsers rl2 !! u = None ∧
                 lastWarning (default freshUserData (userLimits rl2 !! userKey u mt)) = now1).
  { subst rl2. revert Hnone Hlw. generalize (canSendMessage rl u mt now1).2.
    induction recorded as [|a recorded IH]; intros r Hnone Hlw; [done|].
    simpl. destruct (recordAction_keeps r u a.1 mt a.2) as (Hb & _ & Hw).
    apply IH; [by rewrite Hb | by rewrite Hw]. }
  destruct Hinv as [Hnone2 Hlw2].
  assert (Hb : (isBlocked rl2 u now2).1 = false)
    by (by rewrite (RateLimiterProps.isBlocked_unregistered _ _ _ Hnone2)).
  rewrite (canSendMessage_unblocked _ _ _ _ Hb). cbv zeta.
  destruct (checkLimits _ _ _ now2) as [|v0 vs']; [|by rewrite handleViolations_fst].
  rewrite shouldWarn_cooldown; [done|].
  rewrite RateLimiterProps.cleanOldEntries_lastWarning. lia.
Qed.

(** *** The expiry sweep *)

Lemma cleanup_lookup_None (rl : RateLimiter.t) (now : Z) (u : string) :
  blockedUsers (cleanupBlockedUsers rl now) !! u = None ↔
  ∀ info, blockedUsers rl !! u = Some info → blockedAt info + duration info ≤ now.
Proof.
  unfold cleanupBlockedUsers; simpl. rewrite map_lookup_filter_None. split.
  - intros [Hn | Hall] info Hl; [congruence|]. specialize (Hall info Hl). simpl in Hall. lia.
  - intros Hall. destruct (blockedUsers rl !! u) as [info|] eqn:Hl; [right | by left].
    intros info' [= <-]. specialize (Hall info eq_refl). simpl. lia.
Qed.

(** X8.  The periodic sweep and the lazy lookup agree.  At one instant the
    sweep keeps exactly the records of the senders [isBlocked] finds
    blocked, leaving for each sender what the lookup leaves; and sweeping
    changes no later admission decision. *)
Theorem sweep_agrees_with_lookup (rl : RateLimiter.t) (u : string) (now : Z) :
  blockedUsers (cleanupBlockedUsers rl now) !! u
    = blockedUsers (isBlocked rl u now).2 !! u ∧
  ((isBlocked rl u now).1 = true ↔
     is_Some (blockedUsers (cleanupBlockedUsers rl now) !! u)) ∧
  (∀ mt later, now ≤ later →
     (canSendMessage (cleanupBlockedUsers rl now) u mt later).1
       = (canSendMessage rl u mt later).1).
Proof.
  destruct (blockedUsers rl !! u) as [info|] eqn:Hl.
  - rewrite (RateLimiterProps.isBlocked_registered _ _ _ _ Hl).
    destruct (Z.leb_spec (blockedAt info + duration info) now) as [Hexp | Hlive]; cbn [fst snd].
    + assert (Hgone : blockedUsers (cleanupBlockedUsers rl now) !! u = None).
      { apply cleanup_lookup_None. intros info' Hl'. congruence. }
      cbn [blockedUsers]. rewrite lookup_delete_eq. fold (cleanupBlockedUsers rl now) in *.
      rewrite Hgone. split; [done|]. split.
      * split; [done | by intros [? ?]].
      * intros mt later Hle.
        assert (Hlate : (isBlocked rl u later).1 = false).
        { rewrite (RateLimiterProps.isBlocked_registered _ _ _ _ Hl).
          destruct (Z.leb_spec (blockedAt info + duration info) later); [done | lia]. }
        assert (Hswept : (isBlocked (cleanupBlockedUsers rl now) u later).1 = false)
          by (by rewrite (RateLimiterProps.isBlocked_unregistered _ _ _ Hgone)).
        rewrite (canSendMessage_unblocked _ _ _ _ Hlate),
                (canSendMessage_unblocked _ _ _ _ Hswept).
        cbv zeta. simpl userLimits. simpl limits.
        destruct (checkLimits _ _ _ later) as [|v0 vs]; [done|].
        by rewrite !handleViolations_fst.
    + assert (Hkept : blockedUsers (cleanupBlockedUsers rl now) !! u = Some info)
        by (by apply RateLimiterProps.cleanupBlockedUsers_lookup).
      rewrite Hkept, Hl. split; [done|]. split; [split; eauto|].
      intros mt later _. apply RateLimiterProps.canSendMessage_decision_ext; try done.
      by rewrite Hkept, Hl.
  - rewrite (RateLimiterProps.isBlocked_unregistered _ _ _ Hl). cbn [fst snd].
    assert (Hgone : blockedUsers (cleanupBlockedUsers rl now) !! u = None).
    { apply cleanup_lookup_None. intros info' Hl'. congruence. }
    rewrite Hgone, Hl. split; [done|]. split; [split; [done | by intros [? ?]]|].
    intros mt later _. apply RateLimiterProps.canSendMessage_decision_ext; try done.
    by rewrite Hgone, Hl.
Qed.

(** *** Counting *)

Lemma countSince_nonneg (l : list Z) (cutoff : Z) : 0 ≤ countSince l cutoff.
Proof. unfold countSince. lia. Qed.

Lemma countSince_le_length (l : list Z) (cutoff : Z) :
  countSince l cutoff ≤ Z.of_nat (length l).
Proof. unfold countSince. pose proof (length_filter (λ time, cutoff < time) l). lia. Qed.

Lemma countSince_mono (l : list Z) (c1 c2 : Z) :
  c1 ≤ c2 → countSince l c2 ≤ countSince l c1.
Proof.
  intros Hc. unfold countSince. apply inj_le.
  induction l as [|x l IH]; [done|].
  rewrite !filter_cons. repeat case_decide; simpl; lia.
Qed.

(** Purging the entries older than a day changes no window count. *)
Lemma countSince_purged (l : list Z) (c0 c : Z) :
  c0 ≤ c → countSince (filter (λ time, c0 < time) l) c = countSince l c.
Proof.
  intros Hc. unfold countSince. f_equal.
  induction l as [|x l IH]; [done|].
  rewrite !filter_cons. repeat case_decide; rewrite ?filter_cons;
    repeat case_decide; simpl; lia.
Qed.

(** X10.  The statistics of a sender.  [getUserStats] answers [null] exactly
    for a key that has no record; otherwise the counts it reports are
    ordered, hour within day within total, the blocked flag is the answer
    of [isBlocked], and the call changes the registry as that lookup
    does. *)
Theorem getUserStats_ordered (rl : RateLimiter.t) (u mt : string) (now : Z) :
  ((getUserStats rl u mt now).1 = None ↔ userLimits rl !! userKey u mt = None) ∧
  (getUserStats rl u mt now).2 =
    match userLimits rl !! userKey u mt with
    | Some _ => (isBlocked rl u now).2
    | None => rl
    end ∧
  ∀ st, (getUserStats rl u mt now).1 = Some st →
        0 ≤ st_perHour st ≤ st_perDay st ∧ st_perDay st ≤ st_total st ∧
        st_isBlocked st = (isBlocked rl u now).1.
Proof.
  unfold getUserStats.
  destruct (userLimits rl !! userKey u mt) as [ud|]; [|done].
  destruct (isBlocked rl u now) as [b rl']. simpl.
  split; [done|]. split; [done|]. intros st [= <-]. simpl.
  split; [split|split]; try done.
  - apply countSince_nonneg.
  - apply countSince_mono. lia.
  - apply countSince_le_length.
Qed.

Lemma activeSince_of (ud : UserData) (k : LimitKey) (cutoff : Z) :
  0 < countSince (actions ud k) cutoff → activeSince cutoff ud = true.
Proof.
  intros H%Z.ltb_lt. unfold activeSince.
  destruct k; simpl in H; rewrite H; by rewrite ?orb_true_r.
Qed.

(** X11.  The active senders of [getGlobalStats] are at most the recorded
    keys, and a key that has an action recorded within the last hour makes
    the count positive. *)
Theorem getGlobalStats_active (rl : RateLimiter.t) (now : Z) :
  0 ≤ gs_activeUsers (getGlobalStats rl now) ≤ gs_totalUsers (getGlobalStats rl now) ∧
  ∀ u actionType mt t later,
    later - 60 * 60 * 1000 < t →
    1 ≤ gs_activeUsers (getGlobalStats (recordAction rl u actionType mt t) later).
Proof.
  split.
  - unfold getGlobalStats; simpl. split; [lia|].
    rewrite <- length_map_to_list. apply inj_le, List.filter_length_le.
  - intros u actionType mt t later Hrecent. unfold getGlobalStats; simpl.
    set (ud := default freshUserData (userLimits rl !! userKey u mt)).
    set (k := if String.eqb actionType "command" then commands
              else if String.eqb mt "media" then media else messages).
    set (ud' := setActions ud k (actions ud k ++ [t])).
    assert (Hin : In (userKey u mt, ud')
                    (List.filter (λ kv : string * UserData,
                                    activeSince (later - 60 * 60 * 1000) kv.2)
                       (map_to_list (<[userKey u mt := ud']> (userLimits rl))))).
    { apply filter_In. split.
      - apply list_elem_of_In, elem_of_map_to_list, lookup_insert_eq.
      - apply (activeSince_of _ k).
        assert (Ha : actions ud' k = actions ud k ++ [t]) by (by destruct k).
        cbn [snd]. rewrite Ha. unfold countSince. rewrite filter_app, length_app.
        rewrite filter_cons_True by lia. simpl. lia. }
    destruct (List.filter _ _) as [|x xs]; [done|]. simpl. lia.
Qed.

(** *** The administrative reset *)

(** X9.  [clearUserData] gives the sender a fresh start.  Under the default
    limits, the next check for a text or media message is allowed without
    a warning whatever the sender had recorded and whether or not it was
    blocked. *)
Theorem clearUserData_resets (rl : RateLimiter.t) (u mt : string) (now : Z) :
  limits rl = defaultLimits →
  mt = "text"%string ∨ mt = "media"%string →
  (canSendMessage (clearUserData rl u) u mt now).1 = Allowed ∧
  (isBlocked (clearUserData rl u) u now).1 = false.
Proof.
  intros Hlim Hmt.
  assert (Hnone : blockedUsers (clearUserData rl u) !! u = None)
    by apply lookup_delete_eq.
  assert (Hb : (isBlocked (clearUserData rl u) u now).1 = false)
    by (by rewrite (RateLimiterProps.isBlocked_unregistered _ _ _ Hnone)).
  split; [|done].
  rewrite (canSendMessage_unblocked _ _ _ _ Hb). cbv zeta.
  assert (Hkey : userLimits (clearUserData rl u) !! userKey u mt = None).
  { unfold clearUserData; simpl. apply lookup_delete_None.
    destruct Hmt as [-> | ->]; [right | by left]. apply lookup_delete_eq. }
  rewrite Hkey. simpl limits. rewrite Hlim.
  by destruct Hmt as [-> | ->].
Qed.

(** *** Limits and severities *)

Lemma checkLimits_purged (ud : UserData) (k : LimitKey) (lim : Limits) (now : Z) :
  checkLimits (cleanOldEntries ud k now) k lim now = checkLimits ud k lim now.
Proof.
  unfold checkLimits. rewrite RateLimiterProps.cleanOldEntries_actions.
  by rewrite !countSince_purged by lia.
Qed.

Lemma checkLimits_raised (ud : UserData) (k : LimitKey) (lim : Limits) (now : Z) :
  0 < perMinute lim → 0 < perHour lim → 0 < perDay lim →
  Forall (λ v, 0 < v_limit v ≤ v_count v) (checkLimits ud k lim now).
Proof.
  intros Hm Hh Hd. unfold checkLimits.
  repeat case_match; simpl;
    repeat (apply List.Forall_cons; [simpl; lia|]); apply List.Forall_nil.
Qed.

(** X3.  A sender that is not blocked is refused exactly when one of the
    three windows of the log for its message type has reached its limit;
    the counts are those of the log as it stands before the check. *)
Theorem refused_iff_window_full (rl : RateLimiter.t) (u mt : string) (now : Z) :
  (isBlocked rl u now).1 = false →
  let k := if String.eqb mt "media" then media else messages in
  let lim := limitsFor (limits rl) k in
  let acts := actions (default freshUserData (userLimits rl !! userKey u mt)) k in
  allowed (canSendMessage rl u mt now).1 = false ↔
  perMinute lim ≤ countSince acts (now - 60 * 1000) ∨
  perHour lim ≤ countSince acts (now - 60 * 60 * 1000) ∨
  perDay lim ≤ countSince acts (now - 24 * 60 * 60 * 1000).
Proof.
  intros Hb k lim acts. rewrite (canSendMessage_unblocked _ _ _ _ Hb).
  cbv zeta. fold k lim. rewrite checkLimits_purged.
  unfold checkLimits. fold acts.
  destruct (Z.leb_spec (perMinute lim) (countSince acts (now - 60 * 1000)));
  destruct (Z.leb_spec (perHour lim) (countSince acts (now - 60 * 60 * 1000)));
  destruct (Z.leb_spec (perDay lim) (countSince acts (now - 24 * 60 * 60 * 1000)));
  cbn [app]; rewrite ?handleViolations_fst; cbn [fst allowed];
  try (split; [intros _; lia | done]).
  destruct (shouldWarn _ _ _ _).1 as [[n l]|]; cbn [allowed]; split; (done || lia).
Qed.

(** X5.  Severity and block duration grow with the count.  For one positive
    limit, a larger count never gives a lower severity or a shorter
    block. *)
Theorem severity_monotone (w1 w2 : WindowKind) (limit c1 c2 : Z) :
  0 < limit → c1 ≤ c2 →
  let s1 := getViolationSeverity {| v_type := w1; v_count := c1; v_limit := limit |} in
  let s2 := getViolationSeverity {| v_type := w2; v_count := c2; v_limit := limit |} in
  (rank s1 ≤ rank s2)%nat ∧ blockDurations s1 ≤ blockDurations s2.
Proof.
  intros Hpos Hle. unfold getViolationSeverity, ratio_ge; simpl.
  destruct (Z.ltb_spec 0 limit); [|lia].
  repeat (match goal with
          | |- context [?a <=? ?b] => destruct (Z.leb_spec a b)
          end); simpl; split; lia.
Qed.

(** X4.  With positive limits a fresh block is never of severity warning.
    Every violation a check raises has a count of at least its limit, so
    the block is soft, hard or severe and lasts between five minutes and
    two hours. *)
Theorem fresh_block_at_least_soft (rl : RateLimiter.t) (u mt : string) (now : Z)
    (s : Severity) (d : Z) (vs : list Violation) :
  let lim := limitsFor (limits rl) (if String.eqb mt "media" then media else messages) in
  0 < perMinute lim → 0 < perHour lim → 0 < perDay lim →
  (canSendMessage rl u mt now).1 = BlockedViolation s d vs →
  s ≠ warning ∧ d = blockDurations s ∧ 5 * 60 * 1000 ≤ d ≤ 2 * 60 * 60 * 1000 ∧
  vs ≠ [] ∧ Forall (λ v, 0 < v_limit v ≤ v_count v) vs.
Proof.
  intros lim Hm Hh Hd Hdec.
  destruct (canSendMessage_violation_inv rl u mt now s d vs Hdec)
    as (_ & Hcheck & Hdur & v0 & vs' & Hvs & Hs & _).
  cbv zeta in Hcheck. fold lim in Hcheck.
  pose proof (checkLimits_raised
    (cleanOldEntries (default freshUserData (userLimits rl !! userKey u mt))
       (if String.eqb mt "media" then media else messages) now)
    (if String.eqb mt "media" then media else messages) lim now Hm Hh Hd) as Hall.
  rewrite Hcheck in Hall.
  assert (Hsoft : s ≠ warning).
  { pose proof (RateLimiterProps.maxViolation_elem v0 vs') as Hin.
    rewrite <- Hvs in Hin. rewrite Forall_forall in Hall.
    specialize (Hall _ Hin).
    destruct (RateLimiterProps.getViolationSeverity_ratio (maxViolation v0 vs'))
      as (_ & _ & _ & Hw); [lia|].
    rewrite Hs. intros Heq. apply Hw in Heq. lia. }
  split; [done|]. split; [done|]. split; [|split; [by rewrite Hvs | done]].
  rewrite Hdur. destruct s; simpl; try done; lia.
Qed.

(** *** Instances *)

Lemma check_purges_only_witness :
  userLimits (canSendMessage Inputs.oneBlocked "491700@s.whatsapp.net" "text"
                1700000060000).2
    = userLimits Inputs.oneBlocked ∧
  actions (default freshUserData
             (userLimits (canSendMessage Inputs.tiedLimiter "491700@s.whatsapp.net" "text"
                            1700000000000).2
              !! userKey "491700@s.whatsapp.net" "text")) messages
    = filter (λ time, 1700000000000 - 24 * 60 * 60 * 1000 < time)
        (actions (default freshUserData
                    (userLimits Inputs.tiedLimiter
                     !! userKey "491700@s.whatsapp.net" "text")) messages) ∧
  actions (default freshUserData
             (userLimits (canSendMessage Inputs.tiedLimiter "491700@s.whatsapp.net" "text"
                            1700000000000).2
              !! userKey "491700@s.whatsapp.net" "text")) commands
    = actions (default freshUserData
                 (userLimits Inputs.tiedLimiter
                  !! userKey "491700@s.whatsapp.net" "text")) commands.
Proof.
  destruct (check_purges_only Inputs.oneBlocked "491700@s.whatsapp.net" "text"
              1700000060000) as [Hblocked _].
  destruct (check_purges_only Inputs.tiedLimiter "491700@s.whatsapp.net" "text"
              1700000000000) as [_ Hfree].
  split; [exact (Hblocked eq_refl)|].
  destruct (Hfree eq_refl) as [Hlog Hrest].
  split; [exact Hlog|].
  apply (Hrest (userKey "491700@s.whatsapp.net" "text") commands).
  right. discriminate.
Defined.

Lemma check_frame_witness :
  limits (canSendMessage Inputs.tiedLimiter "491700@s.whatsapp.net" "text"
            1700000000000).2 = limits Inputs.tiedLimiter ∧
  blockedUsers (canSendMessage Inputs.tiedLimiter "491700@s.whatsapp.net" "text"
                  1700000000000).2 !! "491701@s.whatsapp.net"%string
    = blockedUsers Inputs.tiedLimiter !! "491701@s.whatsapp.net"%string ∧
  userLimits (canSendMessage Inputs.tiedLimiter "491700@s.whatsapp.net" "text"
                1700000000000).2 !! "491701@s.whatsapp.net:text"%string
    = userLimits Inputs.tiedLimiter !! "491701@s.whatsapp.net:text"%string.
Proof.
  destruct (check_frame Inputs.tiedLimiter "491700@s.whatsapp.net" "text" 1700000000000)
    as (Hlim & Hblock & Hkeys).
  split; [exact Hlim|]. split.
  - apply Hblock. discriminate.
  - apply Hkeys. discriminate.
Defined.

Lemma block_persists_witness :
  ∃ info,
    blockedAt info = 1700000000000 ∧ duration info = 300000 ∧
    violations info =
      [ {| v_type := PerMinute; v_count := 20; v_limit := 20 |};
        {| v_type := PerHour; v_count := 100; v_limit := 100 |} ] ∧
    canSendMessage
      (canSendMessage Inputs.tiedLimiter "491700@s.whatsapp.net" "text" 1700000000000).2
      "491700@s.whatsapp.net" "media" 1700000299999
    = (BlockedExisting (Some info),
       (canSendMessage Inputs.tiedLimiter "491700@s.whatsapp.net" "text" 1700000000000).2) ∧
    (isBlocked
       (canSendMessage Inputs.tiedLimiter "491700@s.whatsapp.net" "text" 1700000000000).2
       "491700@s.whatsapp.net" 1700000300000).1 = false.
Proof.
  destruct (block_persists Inputs.tiedLimiter "491700@s.whatsapp.net" "text" 1700000000000
              soft 300000
              [ {| v_type := PerMinute; v_count := 20; v_limit := 20 |};
                {| v_type := PerHour; v_count := 100; v_limit := 100 |} ] eq_refl)
    as (info & Hat & Hdur & Hvs & Hheld & Hover).
  exists info. split; [exact Hat|]. split; [exact Hdur|]. split; [exact Hvs|]. split.
  - apply Hheld. reflexivity.
  - apply (Hover 1700000300000). discriminate.
Defined.

Lemma warning_cooldown_witness :
  (canSendMessage
     (fold_left (λ r (a : string * Z),
                   recordAction r "491700@s.whatsapp.net" a.1 "text" a.2)
        [("message"%string, 1700000017000)]
        (canSendMessage MoreInputs.sixteenSent "491700@s.whatsapp.net" "text"
           1700000017000).2)
     "491700@s.whatsapp.net" "text" 1700000018000).1
  ≠ AllowedWarning 17 20.
Proof.
  apply (warning_cooldown MoreInputs.sixteenSent "491700@s.whatsapp.net" "text"
           1700000017000 16 20 [("message"%string, 1700000017000)] 1700000018000).
  - reflexivity.
  - discriminate.
Defined.

Lemma sweep_agrees_with_lookup_witness :
  blockedUsers (cleanupBlockedUsers Inputs.oneBlocked 1700001801000)
    !! "491700@s.whatsapp.net"%string
    = blockedUsers (isBlocked Inputs.oneBlocked "491700@s.whatsapp.net" 1700001801000).2
        !! "491700@s.whatsapp.net"%string ∧
  (canSendMessage (cleanupBlockedUsers Inputs.oneBlocked 1700001801000)
     "491700@s.whatsapp.net" "text" 1700001802000).1
    = (canSendMessage Inputs.oneBlocked "491700@s.whatsapp.net" "text" 1700001802000).1.
Proof.
  destruct (sweep_agrees_with_lookup Inputs.oneBlocked "491700@s.whatsapp.net"
              1700001801000) as (Hsame & _ & Hlater).
  split; [exact Hsame|]. apply Hlater. discriminate.
Defined.

Lemma getUserStats_ordered_witness :
  0 ≤ 100 ≤ 100 ∧ 100 ≤ 100 ∧
  false = (isBlocked Inputs.tiedLimiter "491700@s.whatsapp.net" 1700000000000).1.
Proof.
  destruct (getUserStats_ordered Inputs.tiedLimiter "491700@s.whatsapp.net" "text"
              1700000000000) as (_ & _ & Hst).
  apply (Hst {| st_perHour := 100; st_perDay := 100; st_total := 100;
                st_lastWarning := 0; st_warningCount := 0; st_isBlocked := false |}).
  reflexivity.
Defined.

Lemma getGlobalStats_active_witness :
  1 ≤ gs_activeUsers
        (getGlobalStats
           (recordAction RateLimiter.create "491700@s.whatsapp.net" "command" "text"
              1700000000000)
           1700003599999).
Proof.
  destruct (getGlobalStats_active RateLimiter.create 1700003599999) as [_ Hactive].
  apply Hactive. reflexivity.
Defined.

Lemma clearUserData_resets_witness :
  (canSendMessage (clearUserData Inputs.burstLimiter "491700@s.whatsapp.net")
     "491700@s.whatsapp.net" "text" 1700000000000).1 = Allowed ∧
  (isBlocked (clearUserData Inputs.burstLimiter "491700@s.whatsapp.net")
     "491700@s.whatsapp.net" 1700000000000).1 = false.
Proof.
  apply (clearUserData_resets Inputs.burstLimiter "491700@s.whatsapp.net" "text"
           1700000000000).
  - reflexivity.
  - left. reflexivity.
Defined.

Lemma refused_iff_window_full_witness :
  allowed (canSendMessage Inputs.tiedLimiter "491700@s.whatsapp.net" "text"
             1700000000000).1 = false ↔
  perMinute (limitsFor (limits Inputs.tiedLimiter) messages)
    ≤ countSince
        (actions (default freshUserData
                    (userLimits Inputs.tiedLimiter
                     !! userKey "491700@s.whatsapp.net" "text")) messages)
        (1700000000000 - 60 * 1000) ∨
  perHour (limitsFor (limits Inputs.tiedLimiter) messages)
    ≤ countSince
        (actions (default freshUserData
                    (userLimits Inputs.tiedLimiter
                     !! userKey "491700@s.whatsapp.net" "text")) messages)
        (1700000000000 - 60 * 60 * 1000) ∨
  perDay (limitsFor (limits Inputs.tiedLimiter) messages)
    ≤ countSince
        (actions (default freshUserData
                    (userLimits Inputs.tiedLimiter
                     !! userKey "491700@s.whatsapp.net" "text")) messages)
        (1700000000000 - 24 * 60 * 60 * 1000).
Proof.
  apply (refused_iff_window_full Inputs.tiedLimiter "491700@s.whatsapp.net" "text"
           1700000000000).
  reflexivity.
Defined.

Lemma severity_monotone_witness :
  (rank (getViolationSeverity {| v_type := PerMinute; v_count := 29; v_limit := 20 |})
   ≤ rank (getViolationSeverity {| v_type := PerHour; v_count := 30; v_limit := 20 |}))%nat ∧
  blockDurations (getViolationSeverity {| v_type := PerMinute; v_count := 29; v_limit := 20 |})
  ≤ blockDurations (getViolationSeverity {| v_type := PerHour; v_count := 30; v_limit := 20 |}).
Proof.
  apply (severity_monotone PerMinute PerHour 20 29 30).
  - reflexivity.
  - discriminate.
Defined.

Lemma fresh_block_at_least_soft_witness :
  soft ≠ warning ∧ 300000 = blockDurations soft ∧
  5 * 60 * 1000 ≤ 300000 ≤ 2 * 60 * 60 * 1000 ∧
  [ {| v_type := PerMinute; v_count := 40; v_limit := 20 |};
    {| v_type := PerHour; v_count := 100; v_limit := 100 |} ] ≠ [] ∧
  Forall (λ v, 0 < v_limit v ≤ v_count v)
    [ {| v_type := PerMinute; v_count := 40; v_limit := 20 |};
      {| v_type := PerHour; v_count := 100; v_limit := 100 |} ].
Proof.
  apply (fresh_block_at_least_soft Inputs.burstLimiter "491700@s.whatsapp.net" "text"
           1700000000000 soft 300000
           [ {| v_type := PerMinute; v_count := 40; v_limit := 20 |};
             {| v_type := PerHour; v_count := 100; v_limit := 100 |} ]).
  - reflexivity.
  - reflexivity.
  - reflexivity.
  - reflexivity.
Defined.

End RateLimiterMore.

(** ** Properties of the rate limit kept in the store *)

Module RateLimitTableProps.

Import RateLimitTable.







End RateLimitTableProps.

(** ** Further properties of the message handler *)

Module HandlerMore.

Import Store MessageHandler Spec Delivery Events.

Section Pipeline.

Variable regexTest : string → bool → string → option bool.
Variable sqlAfter : Z → Z → bool.

(** *** Events that fail *)

Lemma normalize_outcome (raw : RawMessage) :
  match messageTimestamp raw with
  | Some seconds =>
      if validDate (seconds * 1000)
      then ∃ md, normalize raw = Ok md ∧ message_id md = id (key raw) ∧
                 jid md = remoteJid (key raw)
      else normalize raw = Throw "RangeError: Invalid time value"
  | None => normalize raw = Throw "RangeError: Invalid time value"
  end.
Proof.
  unfold normalize, extractMessageData, isoTimestamp.
  destruct (payload (message raw)) as [[[c mu] mt] kind].
  destruct (messageTimestamp raw) as [seconds|]; [|done].
  destruct (validDate (seconds * 1000)); [|done].
  eexists. split; [reflexivity|]. done.
Qed.

Lemma processMessage_normalize (h : MessageHandler.t) (raw : RawMessage) (now : Z) (e : string) :
  fromMe (key raw) = false →
  normalize raw = Throw e →
  processMessage regexTest sqlAfter h raw now = Throw e.
Proof.
  intros Hme Hn. unfold processMessage. rewrite Hme.
  unfold normalize in Hn. by rewrite Hn.
Qed.


(** *** Stored messages *)

Lemma hasMessage_saveMessage_mono (store : Store.t) (md : MessageData) (mid : string) :
  Store.hasMessage store mid = true →
  Store.hasMessage (Store.saveMessage store md) mid = true.
Proof.
  intros H. unfold Store.saveMessage. case_match; [done|].
  unfold Store.hasMessage in *; simpl. by rewrite existsb_app, H.
Qed.

Lemma onMessage_messages (h : MessageHandler.t) (raw : RawMessage) (now : Z) :
  messagesTable (db (onMessage regexTest sqlAfter h raw now)) =
    if fromMe (key raw) then messagesTable (db h)
    else match normalize raw with
         | Ok md => messagesTable (Store.saveMessage (db h) md)
         | Throw _ => messagesTable (db h)
         end.
Proof.
  unfold onMessage. destruct (fromMe (key raw)) eqn:Hme.
  - unfold processMessage. by rewrite Hme.
  - destruct (normalize raw) as [md|e] eqn:Hn.
    + destruct (MessageHandlerProps.processMessage_stages regexTest sqlAfter
                  h raw now md Hme Hn) as (h' & Hrun & Hm & _).
      by rewrite Hrun.
    + by rewrite (processMessage_normalize h raw now e Hme Hn).
Qed.

Lemma upsert_keeps_messages (batch : list (RawMessage * Z)) (h : MessageHandler.t)
    (mid : string) :
  Store.hasMessage (db h) mid = true →
  Store.hasMessage (db (upsert regexTest sqlAfter h batch)) mid = true.
Proof.
  revert h. induction batch as [|m batch IH]; intros h Hhas; [done|].
  unfold upsert. simpl. apply IH.
  destruct (fromMe (key m.1)) eqn:Hme; [done|].
  unfold Store.hasMessage. rewrite onMessage_messages, Hme.
  destruct (normalize m.1); [|done]. by apply hasMessage_saveMessage_mono.
Qed.

(** X15.  One failing message does not stop the stream.  After a batch has
    been delivered, every message of the batch that comes from another
    sender and has a valid timestamp is in the store, whatever the other
    messages of the batch are. *)
Theorem batch_stores_every_valid_message
    (h : MessageHandler.t) (batch : list (RawMessage * Z)) (raw : RawMessage) (now : Z)
    (seconds : Z) :
  (raw, now) ∈ batch →
  fromMe (key raw) = false →
  messageTimestamp raw = Some seconds →
  validDate (seconds * 1000) = true →
  Store.hasMessage (db (upsert regexTest sqlAfter h batch)) (id (key raw)) = true.
Proof.
  intros Hin Hme Hts Hvalid. revert h.
  induction batch as [|m batch IH]; intros h; [by apply elem_of_nil in Hin|].
  apply elem_of_cons in Hin as [<- | Hin].
  - unfold upsert. simpl. rewrite Hme. apply upsert_keeps_messages.
    unfold Store.hasMessage. rewrite onMessage_messages, Hme.
    pose proof (normalize_outcome raw) as Hout. rewrite Hts, Hvalid in Hout.
    destruct Hout as (md & -> & Hid & _). rewrite <- Hid.
    apply MessageHandlerProps.hasMessage_saveMessage.
  - unfold upsert. simpl. by apply IH.
Qed.

Lemma saveMessage_NoDup (store : Store.t) (md : MessageData) :
  NoDup (message_id <$> messagesTable store) →
  NoDup (message_id <$> messagesTable (Store.saveMessage store md)).
Proof.
  intros Hnd. unfold Store.saveMessage.
  destruct (Store.hasMessage store (message_id md)) eqn:Hhas; [done|].
  simpl. rewrite fmap_app. apply NoDup_app. split; [done|]. split.
  - intros x Hx Hx'. apply list_elem_of_singleton in Hx'. subst x.
    apply list_elem_of_fmap in Hx as (r & Hid & Hr).
    unfold Store.hasMessage in Hhas.
    assert (existsb (λ r, String.eqb (message_id r) (message_id md))
              (messagesTable store) = true); [|congruence].
    apply existsb_exists. exists r. split; [by apply list_elem_of_In|].
    rewrite <- Hid. apply String.eqb_refl.
  - apply NoDup_singleton.
Qed.

(** X16.  A message is stored once.  Processing keeps the message ids of the
    store distinct, and delivering an event a second time leaves the
    stored messages as they are. *)
Theorem redelivery_stores_once (h : MessageHandler.t) (raw : RawMessage) (now later : Z) :
  (NoDup (message_id <$> messagesTable (db h)) →
   NoDup (message_id <$> messagesTable (db (onMessage regexTest sqlAfter h raw now)))) ∧
  messagesTable
    (db (onMessage regexTest sqlAfter (onMessage regexTest sqlAfter h raw now) raw later))
  = messagesTable (db (onMessage regexTest sqlAfter h raw now)).
Proof.
  split.
  - intros Hnd. rewrite onMessage_messages.
    destruct (fromMe (key raw)); [done|].
    destruct (normalize raw); [|done]. by apply saveMessage_NoDup.
  - rewrite (onMessage_messages (onMessage regexTest sqlAfter h raw now)).
    destruct (fromMe (key raw)) eqn:Hme; [done|].
    destruct (normalize raw) as [md|e] eqn:Hn; [|done].
    assert (Hhas : Store.hasMessage (db (onMessage regexTest sqlAfter h raw now))
                     (message_id md) = true).
    { unfold Store.hasMessage. rewrite onMessage_messages, Hme, Hn.
      apply MessageHandlerProps.hasMessage_saveMessage. }
    unfold Store.saveMessage at 1. by rewrite Hhas.
Qed.

(** *** Where responses go *)

Lemma responses_target (rows : list TriggerRow) (md : MessageData) :
  Forall (λ o, to o = jid md) (responses regexTest rows md).
Proof.
  unfold responses. destruct (content md) as [| |raw]; try constructor.
  destruct (String.eqb raw ""); [constructor|].
  apply Forall_fmap, Forall_forall. done.
Qed.

(** X17.  The pipeline answers into the conversation of the event only.
    Whatever [processMessage] dispatches for an event, trigger responses
    and spam warning alike, is addressed to the [remoteJid] of the event,
    and what was dispatched before stays in place. *)
Theorem dispatch_stays_in_conversation (h : MessageHandler.t) (raw : RawMessage) (now : Z) :
  ∃ new, dispatched (onMessage regexTest sqlAfter h raw now) = dispatched h ++ new ∧
         Forall (λ o, to o = remoteJid (key raw)) new.
Proof.
  unfold onMessage. destruct (fromMe (key raw)) eqn:Hme.
  - unfold processMessage. rewrite Hme. exists []. by rewrite app_nil_r.
  - destruct (normalize raw) as [md|e] eqn:Hn.
    + destruct (MessageHandlerProps.processMessage_stages regexTest sqlAfter
                  h raw now md Hme Hn) as (h' & -> & _ & _ & Hd & _).
      eexists. split; [exact Hd|].
      assert (Hjid : jid md = remoteJid (key raw)).
      { pose proof (normalize_outcome raw) as Hout.
        destruct (messageTimestamp raw) as [s|]; [|congruence].
        destruct (validDate (s * 1000)); [|congruence].
        destruct Hout as (md' & Hn' & _ & Hj). congruence. }
      rewrite <- Hjid. apply Forall_app. split; [apply responses_target|].
      case_match; repeat constructor.
    + rewrite (processMessage_normalize h raw now e Hme Hn).
      exists []. by rewrite app_nil_r.
Qed.

(** X18.  A rule that cannot fire is passed over.  A rule whose pattern does
    not compile, or whose match type is none of the three, sends nothing
    and does not keep the rules before and after it from being evaluated:
    the responses are those of the snapshot without it. *)
Theorem dead_rule_is_skipped (h : MessageHandler.t) (before after : list TriggerRow)
    (rule : TriggerRow) (md : MessageData) :
  (match_type rule = "regex"%string ∧
   ∀ raw, regexTest (keyword rule) (case_sensitive rule) raw = None)
  ∨ (match_type rule ≠ "exact"%string ∧ match_type rule ≠ "contains"%string ∧
     match_type rule ≠ "regex"%string) →
  dispatched (processTriggers regexTest (withSnapshot h (before ++ rule :: after)) md)
    = dispatched (processTriggers regexTest (withSnapshot h (before ++ after)) md).
Proof.
  intros Hdead.
  destruct (MessageHandlerProps.processTriggers_effect regexTest
              (withSnapshot h (before ++ rule :: after)) md) as (-> & _).
  destruct (MessageHandlerProps.processTriggers_effect regexTest
              (withSnapshot h (before ++ after)) md) as (-> & _).
  simpl. f_equal. unfold responses.
  destruct (content md) as [| |raw]; try done.
  destruct (String.eqb raw ""); [done|]. f_equal.
  rewrite !List.filter_app. simpl.
  assert (Hno : fires regexTest raw rule = false).
  { unfold fires, shouldRespond. destruct Hdead as [[Hk Hnone] | (He & Hc & Hr)].
    - rewrite Hk. simpl. by rewrite Hnone.
    - apply String.eqb_neq in He, Hc, Hr. by rewrite He, Hc, Hr. }
  by rewrite Hno.
Qed.

End Pipeline.

(** *** The rule store *)

Lemma hasKeyword_false (store : Store.t) (kw : string) :
  Store.hasKeyword store kw = false ↔ kw ∉ keyword <$> triggersTable store.
Proof.
  unfold Store.hasKeyword. rewrite <- not_true_iff_false, existsb_exists. split.
  - intros Hno Hin. apply list_elem_of_fmap in Hin as (r & -> & Hr).
    apply Hno. exists r. split; [by apply list_elem_of_In | apply String.eqb_refl].
  - intros Hno (r & Hr & Heq). apply String.eqb_eq in Heq. apply Hno.
    apply list_elem_of_fmap. exists r. split; [done | by apply list_elem_of_In].
Qed.

(** X19.  Adding a rule and removing it again is a round trip.  When no rule
    has the keyword, [addTrigger] followed by [removeTrigger] of that
    keyword both succeed and leave the table of rules, and the snapshot
    loaded from it, as they were before. *)
Theorem add_then_remove (h : MessageHandler.t) (kw resp mtype : string) (cs : bool) :
  Store.hasKeyword (db h) kw = false →
  let added := addTrigger h kw resp mtype cs in
  let removed := removeTrigger added.2 kw in
  added.1 = true ∧ removed.1 = true ∧
  triggersTable (db removed.2) = triggersTable (db h) ∧
  triggers removed.2 = Store.getActiveTriggers (db h).
Proof.
  intros Hnew added removed. subst added removed.
  unfold addTrigger, Store.addTrigger. rewrite Hnew. simpl.
  assert (Htable :
    List.filter (λ r, negb (String.eqb (keyword r) kw))
      (triggersTable (db h) ++
       [ {| keyword := kw; response := resp; is_active := true;
            match_type := mtype; case_sensitive := cs |} ])
    = triggersTable (db h)).
  { rewrite List.filter_app. simpl. rewrite String.eqb_refl. simpl.
    rewrite app_nil_r.
    by apply (MessageHandlerProps.filter_rejecting_none
                (λ r, String.eqb (keyword r) kw)). }
  split; [done|]. split; [done|]. split; [exact Htable|].
  unfold Store.getActiveTriggers; simpl. by rewrite Htable.
Qed.

(** X20.  Keywords stay unique.  If no two rules of the table share a
    keyword, this is still so after [addTrigger], whether it succeeds or
    not, and after [removeTrigger]. *)
Theorem keywords_stay_unique (h : MessageHandler.t) (kw resp mtype : string) (cs : bool) :
  NoDup (keyword <$> triggersTable (db h)) →
  NoDup (keyword <$> triggersTable (db (addTrigger h kw resp mtype cs).2)) ∧
  NoDup (keyword <$> triggersTable (db (removeTrigger h kw).2)).
Proof.
  intros Hnd. split.
  - unfold addTrigger, Store.addTrigger.
    destruct (Store.hasKeyword (db h) kw) eqn:Hk; [done|]. simpl.
    rewrite fmap_app. apply NoDup_app. split; [done|]. split; [|apply NoDup_singleton].
    intros x Hx Hx'. apply list_elem_of_singleton in Hx'. simpl in Hx'. subst x.
    by apply hasKeyword_false in Hk.
  - simpl. generalize dependent (triggersTable (db h)). intros rows Hnd.
    induction rows as [|r rows IH]; [done|]. simpl in *.
    apply NoDup_cons in Hnd as [Hr Hnd].
    destruct (negb (String.eqb (keyword r) kw)); [|by apply IH]. simpl.
    apply NoDup_cons. split; [|by apply IH].
    intros Hin. apply Hr. apply list_elem_of_fmap in Hin as (r' & Heq & Hr').
    apply list_elem_of_fmap. exists r'. split; [done|].
    apply list_elem_of_In in Hr'. apply filter_In in Hr' as [Hr' _].
    by apply list_elem_of_In.
Qed.

(** *** The normalized record *)

Lemma payload_of_conversation (b : MessageBody) (s : string) :
  conversation b = Some s → s ≠ ""%string →
  payload (Some b) = (Js.Val s, Js.Null, Js.Null, "text"%string).
Proof.
  intros Hc Hne. unfold payload. rewrite Hc. simpl.
  apply String.eqb_neq in Hne. by rewrite Hne, Hne.
Qed.

Lemma payload_kind (m : option MessageBody) :
  let '(c, mu, mt, kind) := payload m in
  In kind ["text"; "image"; "video"; "audio"; "document"; "sticker"]%string ∧
  (kind = "text"%string → mu = Js.Null ∧ mt = Js.Null) ∧
  (kind ≠ "text"%string → ∃ s, c = Js.Val s).
Proof.
  unfold payload. destruct m as [b|]; [|kind_facts].
  destruct (negb (String.eqb (Js.or_else (conversation b) "") "")); [kind_facts|].
  destruct (extendedTextMessage b); [kind_facts|].
  destruct (imageMessage b); [kind_facts|].
  destruct (videoMessage b); [kind_facts|].
  destruct (audioMessage b); [kind_facts|].
  destruct (documentMessage b); [kind_facts|].
  destruct (stickerMessage b); kind_facts.
Qed.

(** X21.  What normalization yields.  The record carries the id and the
    conversation of the event; its kind is one of text, image, video,
    audio, document and sticker; a text record has no media reference; a
    media record always has a content string (its caption or the empty
    string); and a non-empty [conversation] text makes the record a text
    record with that content, whatever media the event also carries. *)
Theorem normalized_record (raw : RawMessage) (md : MessageData) :
  normalize raw = Ok md →
  message_id md = id (key raw) ∧
  jid md = remoteJid (key raw) ∧
  sender_jid md = Js.or_else (participant (key raw)) (remoteJid (key raw)) ∧
  In (message_type md) ["text"; "image"; "video"; "audio"; "document"; "sticker"]%string ∧
  (message_type md = "text"%string → media_url md = Js.Null ∧ media_type md = Js.Null) ∧
  (message_type md ≠ "text"%string → ∃ s, content md = Js.Val s) ∧
  (∀ b s, message raw = Some b → conversation b = Some s → s ≠ ""%string →
          content md = Js.Val s ∧ message_type md = "text"%string).
Proof.
  unfold normalize, extractMessageData.
  pose proof (payload_kind (message raw)) as Hp.
  pose proof (payload_of_conversation) as Hconv.
  destruct (payload (message raw)) as [[[c mu] mt] kind] eqn:Hpay.
  destruct Hp as (Hin & Htext & Hmedia).
  destruct (isoTimestamp (messageTimestamp raw)); [|discriminate].
  intros [= <-]. simpl. repeat split; try done.
  - by apply Htext.
  - by apply Htext.
  - rewrite H in Hpay. rewrite (Hconv b s) in Hpay by done. congruence.
  - rewrite H in Hpay. rewrite (Hconv b s) in Hpay by done. congruence.
Qed.

(** *** Group updates *)

Lemma greet_add_connected (members : list string) (h : MessageHandler.t) (group : string) :
  connected h = true →
  dispatched (greet h group "add" members).2 =
    dispatched h ++ ((λ m, {| to := group; body := welcomeText m |}) <$> members) ∧
  (greet h group "add" members).1 = true.
Proof.
  revert h. induction members as [|m members IH]; intros h Hc.
  - simpl. by rewrite app_nil_r.
  - simpl. rewrite Hc.
    match goal with
    | |- context [greet ?h1 group "add" members] =>
        destruct (IH h1 eq_refl) as [Hd Hok]; rewrite Hd, Hok
    end.
    simpl. by rewrite <- app_assoc.
Qed.

Lemma greet_other (members : list string) (h : MessageHandler.t) (group action : string) :
  action ≠ "add"%string →
  dispatched (greet h group action members).2 = dispatched h.
Proof.
  intros Hne. apply String.eqb_neq in Hne.
  revert h. induction members as [|m members IH]; intros h; [done|].
  simpl. rewrite Hne. destruct (String.eqb action "remove"); by rewrite IH.
Qed.

(** X22.  Welcomes.  With the transport connected, a group update that adds
    participants dispatches one welcome for each of them into the group,
    in their order; with the transport down only the welcome of the first
    is attempted; and an update with any other action, or without
    participants, dispatches nothing. *)
Theorem welcome_per_added_member (h : MessageHandler.t) (update : GroupUpdate) :
  (∀ members, gu_participants update = Some members →
     gu_action update = "add"%string →
     dispatched (processGroupUpdate h update) =
       dispatched h ++
       ((λ m, {| to := gu_id update; body := welcomeText m |})
          <$> (if connected h then members else take 1 members))) ∧
  (gu_participants update = None ∨ gu_action update ≠ "add"%string →
     dispatched (processGroupUpdate h update) = dispatched h).
Proof.
  unfold processGroupUpdate. split.
  - intros members -> ->. destruct (connected h) eqn:Hc.
    + by apply greet_add_connected.
    + destruct members as [|m members]; simpl; [by rewrite app_nil_r|].
      by rewrite Hc.
  - intros [-> | Hne]; [done|].
    destruct (gu_participants update) as [members|]; [|done].
    by apply greet_other.
Qed.

(** *** Instances *)


Lemma batch_stores_every_valid_message_witness :
  Store.hasMessage
    (db (upsert noRegex sqliteAfter helloHandler
           [ (noTimestamp, 1700000060000); (ownEcho, 1700000060000);
             (helloWorld, 1700000061000) ]))
    "MSG-2" = true.
Proof.
  apply (batch_stores_every_valid_message noRegex sqliteAfter helloHandler
           [ (noTimestamp, 1700000060000); (ownEcho, 1700000060000);
             (helloWorld, 1700000061000) ]
           helloWorld 1700000061000 1700000060).
  - right. right. left.
  - reflexivity.
  - reflexivity.
  - reflexivity.
Defined.

Lemma redelivery_stores_once_witness :
  NoDup (message_id <$>
           messagesTable (db (onMessage noRegex sqliteAfter afterFive (groupEvent 6)
                                1700000060000))) ∧
  messagesTable
    (db (onMessage noRegex sqliteAfter
           (onMessage noRegex sqliteAfter afterFive (groupEvent 6) 1700000060000)
           (groupEvent 6) 1700000061000))
  = messagesTable (db (onMessage noRegex sqliteAfter afterFive (groupEvent 6)
                         1700000060000)).
Proof.
  destruct (redelivery_stores_once noRegex sqliteAfter afterFive (groupEvent 6)
              1700000060000 1700000061000) as [Hnd Hsame].
  split; [|exact Hsame].
  apply Hnd. apply (bool_decide_unpack _). vm_compute. exact I.
Defined.

Lemma dead_rule_is_skipped_witness :
  dispatched
    (processTriggers noRegex
       (withSnapshot helpHandler [helpRule; MoreInputs.brokenRule; MoreInputs.helpAgain])
       helpMessage)
  = dispatched
      (processTriggers noRegex
         (withSnapshot helpHandler [helpRule; MoreInputs.helpAgain]) helpMessage).
Proof.
  apply (dead_rule_is_skipped noRegex helpHandler [helpRule] [MoreInputs.helpAgain]
           MoreInputs.brokenRule helpMessage).
  left. split; reflexivity.
Defined.

Lemma add_then_remove_witness :
  (addTrigger helpHandler "bye" "See you" "exact" false).1 = true ∧
  (removeTrigger (addTrigger helpHandler "bye" "See you" "exact" false).2 "bye").1 = true ∧
  triggersTable
    (db (removeTrigger (addTrigger helpHandler "bye" "See you" "exact" false).2 "bye").2)
    = triggersTable (db helpHandler) ∧
  triggers (removeTrigger (addTrigger helpHandler "bye" "See you" "exact" false).2 "bye").2
    = Store.getActiveTriggers (db helpHandler).
Proof.
  apply (add_then_remove helpHandler "bye" "See you" "exact" false).
  reflexivity.
Defined.

Lemma keywords_stay_unique_witness :
  NoDup (keyword <$>
           triggersTable (db (addTrigger helpHandler "bye" "See you" "exact" false).2)) ∧
  NoDup (keyword <$> triggersTable (db (removeTrigger helpHandler "help").2)).
Proof.
  assert (Hnd : NoDup (keyword <$> triggersTable (db helpHandler)))
    by (vm_compute; apply NoDup_singleton).
  destruct (keywords_stay_unique helpHandler "bye" "See you" "exact" false Hnd)
    as [Hadd _].
  destruct (keywords_stay_unique helpHandler "help" "Hi" "exact" false Hnd)
    as [_ Hremove].
  split; [exact Hadd | exact Hremove].
Defined.

Lemma normalized_record_witness :
  message_id MoreInputs.captionedRecord = "IMG-1"%string ∧
  jid MoreInputs.captionedRecord = "120363@g.us"%string ∧
  sender_jid MoreInputs.captionedRecord = "491700@s.whatsapp.net"%string ∧
  In (message_type MoreInputs.captionedRecord)
     ["text"; "image"; "video"; "audio"; "document"; "sticker"]%string ∧
  (∃ s, content MoreInputs.captionedRecord = Js.Val s).
Proof.
  destruct (normalized_record MoreInputs.captioned MoreInputs.captionedRecord eq_refl)
    as (Hid & Hjid & Hsender & Hkind & _ & Hmedia & _).
  split; [exact Hid|]. split; [exact Hjid|]. split; [exact Hsender|].
  split; [exact Hkind|]. apply Hmedia. discriminate.
Defined.

Lemma welcome_per_added_member_witness :
  dispatched (processGroupUpdate helpHandler MoreInputs.twoJoin) =
    [ {| to := "120363@g.us"; body := welcomeText "491700@s.whatsapp.net" |};
      {| to := "120363@g.us"; body := welcomeText "491701@s.whatsapp.net" |} ] ∧
  dispatched (processGroupUpdate helpHandler MoreInputs.oneLeaves) = [].
Proof.
  destruct (welcome_per_added_member helpHandler MoreInputs.twoJoin) as [Hadd _].
  destruct (welcome_per_added_member helpHandler MoreInputs.oneLeaves) as [_ Hnone].
  split.
  - apply (Hadd ["491700@s.whatsapp.net"; "491701@s.whatsapp.net"]%string);
      reflexivity.
  - apply Hnone. right. discriminate.
Defined.

End HandlerMore.
